(** * Login handshake of the bank server: secure-document library and
      ClientService, embedded and verified.

    Sources embedded here:
    - the secure-document library ([secureHash], [createMIC], [micMatch],
      [cipherData], [decipherData], [encryptAsymmetricData],
      [decryptAsymmetricData], [generateSymmetricKey],
      [generateAsymmetricKeys], [protect], [protectAsymmetric], [check],
      [unprotect], [unprotectAsymmetric]);
    - [server/src/client/client.service.ts] (the [ClientService]
      constructor, [checkSessions] and [login]).

    Node's [crypto], [Buffer], [JSON.parse], luxon and class-validator are
    platform code: they are the fields of the [Platform] class below, and
    every law a theorem needs about them is a named hypothesis of that
    theorem.  [JSON.stringify] is written out, because the integrity tags
    of the library are hashes of its output. *)

From stdpp Require Import base option list strings pretty gmap fin_maps infinite.
From Stdlib Require Import ZArith Lia Ascii String.
From Stdlib.Strings Require Import Byte.

Set Warnings "-register-all".

Local Open Scope string_scope.
Local Open Scope Z_scope.

Global Instance byte_eq_dec : EqDecision byte := Byte.byte_eq_dec.

(** ** JavaScript values and exceptions *)

(** The values that cross [JSON.stringify] / [JSON.parse].  Numbers are the
    integral ones; [VUndefined] is JavaScript's [undefined]. *)
Inductive value : Type :=
  | VUndefined
  | VNull
  | VBool (b : bool)
  | VNum (n : Z)
  | VStr (s : string)
  | VArr (items : list value)
  | VObj (fields : list (string * value)).

(** Exceptions, by the class that is thrown. *)
Inductive exn : Type :=
  | Error (msg : string)                    (* [new Error(msg)] *)
  | TypeError                               (* thrown by Node on a bad argument *)
  | CryptoError                             (* thrown by OpenSSL / [crypto] *)
  | SyntaxError (msg : string)              (* thrown by [JSON.parse] *)
  | ConfigError (key : string)              (* [ConfigService.getOrThrow] *)
  | ReplayError                             (* thrown by [checkNonce] *)
  | BadRequestException (msgs : list string)
  | NotFoundException (msg : string)
  | UnauthorizedException (msg : string).

Inductive result (A : Type) : Type :=
  | Ok (a : A)
  | Throw (e : exn).
Arguments Ok {A} a.
Arguments Throw {A} e.

Definition rbind {A B} (r : result A) (k : A → result B) : result B :=
  match r with
  | Ok a => k a
  | Throw e => Throw e
  end.

(** [try { ... } catch { throw e }] *)
Definition catch_as {A} (r : result A) (e : exn) : result A :=
  match r with
  | Ok a => Ok a
  | Throw _ => Throw e
  end.

Definition of_option {A} (o : option A) (e : exn) : result A :=
  match o with
  | Some a => Ok a
  | None => Throw e
  end.

Global Instance result_ret : MRet result := λ A a, Ok a.
Global Instance result_bind : MBind result := λ A B k r, rbind r k.

(** [array.join(sep)] on strings *)
Fixpoint join (sep : string) (l : list string) : string :=
  match l with
  | [] => ""
  | [x] => x
  | x :: l' => x +:+ sep +:+ join sep l'
  end.

(** ** [JSON.stringify] *)

Module JSON.

Definition dquote : ascii := "034"%char.
Definition backslash : ascii := "092"%char.

Definition hex_digit (n : N) : ascii :=
  ascii_of_N (if (n <? 10)%N then 48 + n else 87 + n)%N.

(** One code unit of a string literal, as [QuoteJSONString] writes it. *)
Definition escape_char (c : ascii) : string :=
  let n := N_of_ascii c in
  if (n =? 34)%N then String backslash (String dquote "")
  else if (n =? 92)%N then String backslash (String backslash "")
  else if (n =? 8)%N then String backslash "b"
  else if (n =? 12)%N then String backslash "f"
  else if (n =? 10)%N then String backslash "n"
  else if (n =? 13)%N then String backslash "r"
  else if (n =? 9)%N then String backslash "t"
  else if (n <? 32)%N then
    String backslash
      (String "u" (String "0" (String "0"
        (String (hex_digit (n / 16)) (String (hex_digit (n mod 16)) "")))))
  else String c "".

Fixpoint escape (s : string) : string :=
  match s with
  | EmptyString => ""
  | String c s' => escape_char c +:+ escape s'
  end.

Definition quote (s : string) : string :=
  String dquote (escape s +:+ String dquote "").

(** [JSON.stringify(v)]: [None] is the [undefined] it returns for
    [undefined]; an [undefined] array item prints as [null] and an
    [undefined] property is left out. *)
Fixpoint stringify (v : value) : option string :=
  match v with
  | VUndefined => None
  | VNull => Some "null"
  | VBool b => Some (if b then "true" else "false")
  | VNum n => Some (pretty n)
  | VStr s => Some (quote s)
  | VArr items =>
      let item x := default "null" (stringify x) in
      Some ("[" +:+ join "," (map item items) +:+ "]")
  | VObj fields =>
      let prop (kv : string * value) :=
        match stringify kv.2 with
        | Some s => Some (quote kv.1 +:+ ":" +:+ s)
        | None => None
        end in
      Some ("{" +:+ join "," (omap prop fields) +:+ "}")
  end.

End JSON.

(** Property read [o.k]: throws on [null] and [undefined], and is
    [undefined] when the property is absent. *)
Fixpoint assoc (k : string) (fields : list (string * value)) : value :=
  match fields with
  | [] => VUndefined
  | (k', v) :: rest => if decide (k = k') then v else assoc k rest
  end.

Definition get_prop (o : value) (k : string) : result value :=
  match o with
  | VUndefined | VNull => Throw TypeError
  | VObj fields => Ok (assoc k fields)
  | _ => Ok VUndefined
  end.


(** ** The platform *)

(** What the code takes from Node and from its packages.  Buffers are lists
    of bytes; a JavaScript string is identified with its UTF-8 encoding, so
    [Buffer.from(s)] is [list_byte_of_string] and [buf.toString()] is
    [string_of_list_byte].  Instants are milliseconds since the epoch. *)
Definition RsaPublicKey : Type := list byte.    (* the key, DER-encoded *)
Definition RsaPrivateKey : Type := list byte.

(** [crypto.KeyObject] *)
Inductive KeyObject : Type :=
  | SecretKeyObject (key : list byte)
  | PublicKeyObject (key : RsaPublicKey)
  | PrivateKeyObject (key : RsaPrivateKey).

Class Platform := {
  (** [crypto.createHash("sha256")] *)
  sha256 : list byte → list byte;
  (** [buf.toString("base64")] and [Buffer.from(s, "base64")] *)
  base64_encode : list byte → string;
  base64_decode : string → list byte;
  (** [aes-256-cbc], [update] followed by [final]: key, iv, input *)
  aes_256_cbc_encrypt : list byte → list byte → list byte → list byte;
  aes_256_cbc_decrypt : list byte → list byte → list byte → option (list byte);
  (** RSA with OAEP padding; the second argument of encryption is the
      padding's random seed, [None] is an OpenSSL error *)
  rsa_oaep_encrypt : RsaPublicKey → list byte → list byte → option (list byte);
  rsa_oaep_decrypt : RsaPrivateKey → list byte → option (list byte);
  rsa_public_of_private : RsaPrivateKey → RsaPublicKey;
  (** [generateKeyPairSync("rsa", {modulusLength})] from its random input *)
  rsa_generate : N → list byte → RsaPrivateKey * RsaPublicKey;
  export_spki_pem : RsaPublicKey → string;
  export_pkcs8_pem : RsaPrivateKey → string;
  import_spki_pem : list byte → option RsaPublicKey;
  import_pkcs8_pem : list byte → option RsaPrivateKey;
  JSON_parse : string → option value;
  (** the message of the [SyntaxError] that [JSON.parse] throws on a text it
      refuses; the engine makes it from the text *)
  JSON_parse_error : string → string;
  (** luxon: [DateTime.toISO], and [DateTime.fromISO] with [None] for an
      invalid date *)
  toISO : Z → string;
  fromISO : string → option Z;
}.


(** The operating system's random source: a tape and the number of bytes
    already drawn from it. *)
Record Entropy := { tape : nat → byte; drawn : nat }.

(** Code that draws random bytes and may throw. *)
Definition Rand (A : Type) : Type := Entropy → result A * Entropy.

Global Instance rand_ret : MRet Rand := λ A a g, (Ok a, g).
Global Instance rand_bind : MBind Rand := λ A B k m g,
  match m g with
  | (Ok a, g') => k a g'
  | (Throw e, g') => (Throw e, g')
  end.

Definition liftR {A} (r : result A) : Rand A := λ g, (r, g).

(** The next [n] bytes of the tape, and the source after they were drawn. *)
Definition next_bytes (n : nat) (g : Entropy) : list byte :=
  map (tape g) (seq (drawn g) n).

Definition advance (n : nat) (g : Entropy) : Entropy :=
  {| tape := tape g; drawn := (drawn g + n)%nat |}.

(** [crypto.randomBytes(n)] *)
Definition randomBytes (n : nat) : Rand (list byte) := λ g,
  (Ok (next_bytes n g), advance n g).

(** ** The secure-document library *)

Record CipherResult := { cr_data : string; cr_nonce : string }.

(** [ProtectedData]; [nonce] is [None] on an object that has no such
    property, as the one [protectAsymmetric] returns. *)
Record ProtectedData := { mic : string; nonce : option string; data : string }.

Definition opt_str (o : option string) : value :=
  match o with
  | Some s => VStr s
  | None => VUndefined
  end.

(** The object literal [{ data, nonce }]. *)
Definition cipher_obj (d : string) (n : option string) : value :=
  VObj [("data", VStr d); ("nonce", opt_str n)].

Section SecureLib.
Context `{Platform}.

(** [JSON.stringify(v)] as a value: a string or [undefined]. *)
Definition JSON_stringify (v : value) : value := opt_str (JSON.stringify v).

(** [JSON.parse(s)] *)
Definition JSON_parse_or_throw (s : string) : result value :=
  match JSON_parse s with
  | Some v => Ok v
  | None => Throw (SyntaxError (JSON_parse_error s))
  end.

(** [hash.update(x)] and [Buffer.from(x)] on the result of
    [JSON.stringify]: a [TypeError] when it is [undefined]. *)
Definition string_arg (v : value) : result string :=
  of_option (JSON.stringify v) TypeError.

(** [createHash("sha256")], [update(s)], [digest("base64")] *)
Definition sha256_base64 (s : string) : string :=
  base64_encode (sha256 (list_byte_of_string s)).

Definition secureHash (data : value) : result string :=
  s ← string_arg data;
  Ok (sha256_base64 s).

Definition createMIC (cipheredData : value) : result string :=
  secureHash (JSON_stringify cipheredData).

Definition micMatch (mic : string) (cipheredData : value) : result bool :=
  m ← createMIC cipheredData;
  Ok (String.eqb m mic).

(** [createCipheriv("aes-256-cbc", secret, nonce)] and
    [createDecipheriv]: the key must be a 32-byte secret key and the iv 16
    bytes long. *)
Definition aes_256_cbc_key (secret : KeyObject) (iv : list byte)
  : result (list byte) :=
  match secret with
  | SecretKeyObject k =>
      if decide (List.length k = 32%nat ∧ List.length iv = 16%nat) then Ok k
      else Throw CryptoError
  | _ => Throw TypeError
  end.

Definition cipherData (data : value) (secret : KeyObject) : Rand CipherResult :=
  nonce ← randomBytes 16;
  liftR (key ← aes_256_cbc_key secret nonce;
         s ← string_arg data;
         let encrypted := aes_256_cbc_encrypt key nonce (list_byte_of_string s) in
         Ok {| cr_data := base64_encode encrypted;
               cr_nonce := base64_encode nonce |}).

Definition decipherData (cipheredData : ProtectedData) (secret : KeyObject)
  : result value :=
  nonce ← of_option (base64_decode <$> nonce cipheredData) TypeError;
  key ← aes_256_cbc_key secret nonce;
  decrypted ← of_option
    (aes_256_cbc_decrypt key nonce (base64_decode (data cipheredData)))
    CryptoError;
  JSON_parse_or_throw (string_of_list_byte decrypted).

(** The key [publicEncrypt] uses: a public key, or the public half of a
    private one. *)
Definition public_key_of (k : KeyObject) : result RsaPublicKey :=
  match k with
  | PublicKeyObject pub => Ok pub
  | PrivateKeyObject priv => Ok (rsa_public_of_private priv)
  | SecretKeyObject _ => Throw TypeError
  end.

Definition private_key_of (k : KeyObject) : result RsaPrivateKey :=
  match k with
  | PrivateKeyObject priv => Ok priv
  | _ => Throw TypeError
  end.

(** The seed length of OAEP with SHA-1, Node's default. *)
Definition oaep_seed_length : nat := 20.

Definition encryptAsymmetricData (data : value) (publicKey : KeyObject)
  : Rand string :=
  seed ← randomBytes oaep_seed_length;
  liftR (pub ← public_key_of publicKey;
         s ← string_arg data;
         encryptedBuffer ← of_option
           (rsa_oaep_encrypt pub seed (list_byte_of_string s)) CryptoError;
         Ok (base64_encode encryptedBuffer)).

Definition decryptAsymmetricData (cipheredData : ProtectedData)
    (privateKey : KeyObject) : result value :=
  priv ← private_key_of privateKey;
  decryptedBuffer ← of_option
    (rsa_oaep_decrypt priv (base64_decode (data cipheredData))) CryptoError;
  JSON_parse_or_throw (string_of_list_byte decryptedBuffer).

Definition generateSymmetricKey : Rand KeyObject :=
  bytes ← randomBytes 32;
  mret (SecretKeyObject bytes).

Record AsymmetricKeys := { privateKey : KeyObject; publicKey : KeyObject }.

Definition modulusLength : N := 2048.

Definition generateAsymmetricKeys : Rand AsymmetricKeys :=
  seed ← randomBytes (N.to_nat (modulusLength / 8));
  let keys := rsa_generate modulusLength seed in
  liftR (pub ← of_option
           (import_spki_pem (list_byte_of_string (export_spki_pem keys.2)))
           CryptoError;
         priv ← of_option
           (import_pkcs8_pem (list_byte_of_string (export_pkcs8_pem keys.1)))
           CryptoError;
         Ok {| publicKey := PublicKeyObject pub;
               privateKey := PrivateKeyObject priv |}).

(** The guard [if (!cipheredData)] of [protect] is on an object, which is
    never falsy; the one of [protectAsymmetric] is on a string, falsy when
    empty. *)
Definition protect (data : value) (secret : KeyObject) : Rand ProtectedData :=
  cipheredData ← cipherData data secret;
  liftR (m ← createMIC (cipher_obj (cr_data cipheredData)
                                   (Some (cr_nonce cipheredData)));
         Ok {| mic := m;
               nonce := Some (cr_nonce cipheredData);
               data := cr_data cipheredData |}).

Definition protectAsymmetric (data : value) (secret : KeyObject)
  : Rand ProtectedData :=
  cipheredData ← encryptAsymmetricData data secret;
  liftR (if decide (cipheredData = "") then Throw (Error "Failed to cipher data.")
         else
           m ← secureHash (JSON_stringify (VStr cipheredData));
           Ok {| mic := m; nonce := None; data := cipheredData |}).

Definition check (protectedData : ProtectedData) : result bool :=
  micMatch (mic protectedData)
           (cipher_obj (data protectedData) (nonce protectedData)).

Definition unprotect (protectedData : ProtectedData) (key : KeyObject)
  : result value :=
  ok ← check protectedData;
  if negb ok then Throw (Error "Failed to decipher: compromised data!")
  else decipherData protectedData key.

Definition unprotectAsymmetric (protectedData : ProtectedData) (key : KeyObject)
  : result value :=
  ok ← check protectedData;
  if negb ok then Throw (Error "Failed to decipher: compromised data!")
  else decryptAsymmetricData protectedData key.

End SecureLib.

(** ** The server: [ClientService] *)

(** The documents of the two collections the service uses. *)
Record Client := { name : string; password : string }.

Record Session := {
  sessionKey : string;
  client : Client;
  session_publicKey : string;
  expire : string;
}.

(** Everything outside the process memory that the service reads or
    changes. *)
Record World := {
  os_entropy : Entropy;
  configService : gmap string string;
  fs_writes : list (string * string);     (* [writeFileSync], oldest first *)
  logger : list string;                   (* [Logger.log], oldest first *)
  nonceCache : gmap string Z;             (* nonce ↦ instant of eviction *)
  clientModel : gmap string Client;
  sessionModel : gmap string Session;
}.

Definition set_entropy (g : Entropy) (w : World) : World :=
  {| os_entropy := g; configService := configService w;
     fs_writes := fs_writes w; logger := logger w;
     nonceCache := nonceCache w; clientModel := clientModel w;
     sessionModel := sessionModel w |}.

Definition set_fs_writes (l : list (string * string)) (w : World) : World :=
  {| os_entropy := os_entropy w; configService := configService w;
     fs_writes := l; logger := logger w;
     nonceCache := nonceCache w; clientModel := clientModel w;
     sessionModel := sessionModel w |}.

Definition set_logger (l : list string) (w : World) : World :=
  {| os_entropy := os_entropy w; configService := configService w;
     fs_writes := fs_writes w; logger := l;
     nonceCache := nonceCache w; clientModel := clientModel w;
     sessionModel := sessionModel w |}.

Definition set_nonceCache (c : gmap string Z) (w : World) : World :=
  {| os_entropy := os_entropy w; configService := configService w;
     fs_writes := fs_writes w; logger := logger w;
     nonceCache := c; clientModel := clientModel w;
     sessionModel := sessionModel w |}.

Definition set_sessionModel (s : gmap string Session) (w : World) : World :=
  {| os_entropy := os_entropy w; configService := configService w;
     fs_writes := fs_writes w; logger := logger w;
     nonceCache := nonceCache w; clientModel := clientModel w;
     sessionModel := s |}.

(** Code of the service: it may throw, and what it did to the world before
    throwing stays done. *)
Definition M (A : Type) : Type := World → result A * World.

Global Instance M_ret : MRet M := λ A a w, (Ok a, w).
Global Instance M_bind : MBind M := λ A B k m w,
  match m w with
  | (Ok a, w') => k a w'
  | (Throw e, w') => (Throw e, w')
  end.

Definition throw {A} (e : exn) : M A := λ w, (Throw e, w).
Definition pure_call {A} (r : result A) : M A := λ w, (r, w).
Definition rand_call {A} (m : Rand A) : M A := λ w,
  let '(r, g) := m (os_entropy w) in (r, set_entropy g w).
Definition reads {A} (f : World → A) : M A := λ w, (Ok (f w), w).
Definition modify (f : World → World) : M unit := λ w, (Ok (), f w).

(** [this.logger.log(line)] *)
Definition log (line : string) : M unit :=
  modify (λ w, set_logger (logger w ++ [line]) w).

(** [writeFileSync(path, content)] *)
Definition writeFileSync (path content : string) : M unit :=
  modify (λ w, set_fs_writes (fs_writes w ++ [(path, content)]) w).

(** [this.configService.getOrThrow(key)] *)
Definition getOrThrow (key : string) : M string := λ w,
  (of_option (configService w !! key) (ConfigError key), w).

(** What the service imports that is outside the available sources. *)
Class Imports `{Platform} := {
  (** [validateSync(plainToInstance(LoginDto, v))] of class-validator, for
      the [LoginDto] class of [dtos/login.dto]: the constraint messages of
      each error *)
  validateSync : value → list (list string);
  (** [protectAsymmetricServer] of the library build the server links *)
  protectAsymmetricServer : value → KeyObject → Rand ProtectedData;
  (** how long the replay cache keeps a nonce, in milliseconds *)
  nonceTTL : Z;
}.

(** The body [ProtectedData & { publicKey: string }] of a login request. *)
Record EncodedLoginDto := {
  dto_mic : string;
  dto_nonce : string;
  dto_data : string;
  dto_publicKey : string;
}.

Definition dto_protected (d : EncodedLoginDto) : ProtectedData :=
  {| mic := dto_mic d; nonce := Some (dto_nonce d); data := dto_data d |}.

Record LoginResponse := { res_mic : string; res_data : string }.

Section Server.
Context `{Imports}.

(** Modelled from the spec: [recordIfFresh] of the replay guard
    (section 4.3), which is not among the sources.  It "atomically tests
    for and, if absent, inserts the nonce with a TTL; returns whether it
    was fresh"; "entries past TTL are evicted".  The cache maps a nonce to
    the instant of its eviction. *)
Definition fresh_nonce (now : Z) (n : string) (cache : gmap string Z) : bool :=
  match cache !! n with
  | Some evict => bool_decide (evict ≤ now)
  | None => true
  end.

Definition recordIfFresh (now : Z) (n : string) (cache : gmap string Z)
  : bool * gmap string Z :=
  if fresh_nonce now n cache then (true, <[n := now + nonceTTL]> cache)
  else (false, cache).

(** Modelled from the spec: [checkNonce] of [src/utils/replayProtect],
    which is not among the sources: the call of the guard, and the
    [ReplayError] that section 4.3 has raised "when [recordIfFresh]
    returns false". *)
Definition checkNonce (now : Z) (n : string) : M unit := λ w,
  let '(fresh, cache) := recordIfFresh now n (nonceCache w) in
  if fresh then (Ok (), set_nonceCache cache w)
  else (Throw ReplayError, w).

(** [key.export({ type: "spki", format: "pem" })] and its [pkcs8]
    counterpart; [key.export()] of a secret key. *)
Definition export_spki (k : KeyObject) : result string :=
  match k with
  | PublicKeyObject pub => Ok (export_spki_pem pub)
  | _ => Throw TypeError
  end.

Definition export_pkcs8 (k : KeyObject) : result string :=
  match k with
  | PrivateKeyObject priv => Ok (export_pkcs8_pem priv)
  | _ => Throw TypeError
  end.

Definition export_secret (k : KeyObject) : result (list byte) :=
  match k with
  | SecretKeyObject bytes => Ok bytes
  | _ => Throw TypeError
  end.

(** [createPublicKey({ key, format: "pem", type: "spki" })] *)
Definition createPublicKey (pem : list byte) : result KeyObject :=
  pub ← of_option (import_spki_pem pem) CryptoError;
  Ok (PublicKeyObject pub).

(** The state of a [ClientService] instance. *)
Record ClientService := { this_privateKey : KeyObject }.

(** [new ClientService(nonceCache, clientModel, sessionModel, configService)] *)
Definition constructor : M ClientService :=
  _ ← log "Generating server keypair...";
  keysPath ← getOrThrow "KEYS_PATH";
  keys ← rand_call generateAsymmetricKeys;
  let this := {| this_privateKey := privateKey keys |} in
  _ ← log "Exporting keys...";
  pub_pem ← pure_call (export_spki (publicKey keys));
  _ ← writeFileSync (keysPath +:+ "/server_public.pem") pub_pem;
  priv_pem ← pure_call (export_pkcs8 (privateKey keys));
  _ ← writeFileSync (keysPath +:+ "/server_private.pem") priv_pem;
  _ ← log ("Keys exported to: " +:+ keysPath);
  mret this.

(** [DateTime.fromISO(session.expire) < DateTime.now()]; a comparison with
    an invalid date is false. *)
Definition expired (now : Z) (session : Session) : bool :=
  match fromISO (expire session) with
  | Some t => bool_decide (t < now)
  | None => false
  end.

(** [checkSessions], run by the scheduler at instant [now]. *)
Definition checkSessions (now : Z) : M unit :=
  _ ← log "[Sessions Management]: Pruning expired sessions...";
  sessions ← reads (λ w, map_to_list (sessionModel w));
  let sessionsToDelete :=
    map fst (filter (λ s : string * Session, expired now s.2 = true) sessions) in
  modify (λ w, set_sessionModel
    (filter (λ s : string * Session, s.1 ∉ sessionsToDelete) (sessionModel w)) w).

(** [this.clientModel.findById(id)] *)
Definition find_client (id : value) (clients : gmap string Client)
  : option Client :=
  match id with
  | VStr s => clients !! s
  | _ => None
  end.

Definition findById (id : value) : M (option Client) :=
  reads (λ w, find_client id (clientModel w)).

(** [new this.sessionModel(doc)] followed by [session.save()]: the
    document gets an identifier no stored session has. *)
Definition save_new_session (doc : Session) : M string := λ w,
  let id := fresh (dom (sessionModel w)) in
  (Ok id, set_sessionModel (<[id := doc]> (sessionModel w)) w).

Definition minutes (n : Z) : Z := n * 60000.

(** The object [micPayload] that [login] tags. *)
Definition micPayload (encodedLoginDto : EncodedLoginDto) (loginData : value)
  : value :=
  VObj [("nonce", VStr (dto_nonce encodedLoginDto));
        ("data", loginData);
        ("publicKey", VStr (dto_publicKey encodedLoginDto))].

(** [login], for a request handled at instant [now]. *)
Definition login (this : ClientService) (now : Z)
    (encodedLoginDto : EncodedLoginDto) : M LoginResponse :=
  (* Replay attack check *)
  _ ← checkNonce now (dto_nonce encodedLoginDto);
  loginData ← pure_call
    (catch_as (decryptAsymmetricData (dto_protected encodedLoginDto)
                                     (this_privateKey this))
              (BadRequestException ["Data decryption fault"]));
  let micPayload := micPayload encodedLoginDto loginData in
  matches ← pure_call (micMatch (dto_mic encodedLoginDto) micPayload);
  if negb matches then throw (BadRequestException ["Data integrity fault"])
  else
  let loginDto := loginData in
  let errors := validateSync loginDto in
  if decide (0 < List.length errors)%nat
  then throw (BadRequestException (map (join ", ") errors))
  else
  (* Check credentials *)
  clientId ← pure_call (get_prop loginDto "clientId");
  found ← findById clientId;
  match found with
  | None => throw (NotFoundException "Client not found")
  | Some client =>
  supplied ← pure_call (get_prop loginDto "password");
  digest ← pure_call (secureHash supplied);
  if negb (String.eqb (password client) digest)
  then throw (UnauthorizedException "Invalid credentials")
  else
  (* Initialize session *)
  sessionKey ← rand_call generateSymmetricKey;
  exported ← pure_call (export_secret sessionKey);
  session_id ← save_new_session
    {| sessionKey := base64_encode exported;
       client := client;
       session_publicKey := dto_publicKey encodedLoginDto;
       expire := toISO (now + minutes 10) |};
  let responseData :=
    VObj [("sessionId", VStr session_id);
          ("sessionKey", VStr (base64_encode exported))] in
  clientKey ← pure_call
    (createPublicKey (base64_decode (dto_publicKey encodedLoginDto)));
  protectedData ← rand_call (protectAsymmetricServer responseData clientKey);
  mret {| res_mic := mic protectedData; res_data := data protectedData |}
  end.

(** *** The stages of [login], as conditions on a request *)

Definition decryption_fault : exn := BadRequestException ["Data decryption fault"].
Definition integrity_fault : exn := BadRequestException ["Data integrity fault"].

(** The world once the nonce of the request is recorded. *)
Definition nonce_recorded (now : Z) (dto : EncodedLoginDto) (w : World) : World :=
  set_nonceCache (<[dto_nonce dto := now + nonceTTL]> (nonceCache w)) w.

(** The nonce is fresh and the data decrypts to [loginData]. *)
Definition reaches_integrity (this : ClientService) (now : Z)
    (dto : EncodedLoginDto) (w : World) (loginData : value) : Prop :=
  fresh_nonce now (dto_nonce dto) (nonceCache w) = true
  ∧ decryptAsymmetricData (dto_protected dto) (this_privateKey this) = Ok loginData.

(** Moreover the tag matches and the payload is valid. *)
Definition reaches_credentials (this : ClientService) (now : Z)
    (dto : EncodedLoginDto) (w : World) (loginData : value) : Prop :=
  reaches_integrity this now dto w loginData
  ∧ micMatch (dto_mic dto) (micPayload dto loginData) = Ok true
  ∧ validateSync loginData = [].

(** The collection [clientModel] has no client of the claimed id. *)
Definition unknown_client (loginData : value) (w : World) : Prop :=
  ∃ id, get_prop loginData "clientId" = Ok id
        ∧ find_client id (clientModel w) = None.

(** It has one, whose stored hash is not the digest of the password. *)
Definition wrong_password (loginData : value) (w : World) : Prop :=
  ∃ id client supplied digest,
    get_prop loginData "clientId" = Ok id
    ∧ find_client id (clientModel w) = Some client
    ∧ get_prop loginData "password" = Ok supplied
    ∧ secureHash supplied = Ok digest
    ∧ password client ≠ digest.

(** It has one, whose stored hash is the digest of the password. *)
Definition credentials_accepted (loginData : value) (w : World)
    (client : Client) : Prop :=
  ∃ id supplied,
    get_prop loginData "clientId" = Ok id
    ∧ find_client id (clientModel w) = Some client
    ∧ get_prop loginData "password" = Ok supplied
    ∧ secureHash supplied = Ok (password client).

(** Every stage before the session is issued has succeeded. *)
Definition stages_passed (this : ClientService) (now : Z)
    (dto : EncodedLoginDto) (w : World) (loginData : value)
    (client : Client) : Prop :=
  reaches_credentials this now dto w loginData
  ∧ credentials_accepted loginData w client.

(** The session [login] stores for [client] at instant [now], and the
    world once it is stored: the key is the next 32 bytes of the random
    source. *)
Definition issued_session (now : Z) (dto : EncodedLoginDto) (w : World)
    (client : Client) : Session :=
  {| sessionKey := base64_encode (next_bytes 32 (os_entropy w));
     client := client;
     session_publicKey := dto_publicKey dto;
     expire := toISO (now + minutes 10) |}.

Definition session_issued (now : Z) (dto : EncodedLoginDto) (w : World)
    (client : Client) : World :=
  set_sessionModel
    (<[fresh (dom (sessionModel w)) := issued_session now dto w client]>
       (sessionModel w))
    (set_entropy (advance 32 (os_entropy w)) (nonce_recorded now dto w)).

(** The response to a session that was stored. *)
Definition seal_response (dto : EncodedLoginDto) (session_id : string)
    (key : list byte) : M LoginResponse :=
  let responseData :=
    VObj [("sessionId", VStr session_id);
          ("sessionKey", VStr (base64_encode key))] in
  clientKey ← pure_call (createPublicKey (base64_decode (dto_publicKey dto)));
  protectedData ← rand_call (protectAsymmetricServer responseData clientKey);
  mret {| res_mic := mic protectedData; res_data := data protectedData |}.

(** *** Three sentences of the specification, in its own words *)

(** "The private half must never be serialized to a persistent store":
    no file the constructor writes holds the exported private key. *)
Definition private_key_never_persisted (w : World) : Prop :=
  ∀ this w', constructor w = (Ok this, w') →
    ∀ path content, (path, content) ∈ fs_writes w' →
      export_pkcs8 (this_privateKey this) ≠ Ok content.

(** "The transmitted fields (nonce, ciphertext, claimed public key)". *)
Definition transmitted_fields (dto : EncodedLoginDto) : value :=
  VObj [("nonce", VStr (dto_nonce dto));
        ("data", VStr (dto_data dto));
        ("publicKey", VStr (dto_publicKey dto))].

(** "Recompute and compare the integrity tag over the transmitted fields;
    mismatch ⇒ IntegrityError", for a request that reaches the step. *)
Definition integrity_over_transmitted (this : ClientService) (now : Z)
    (dto : EncodedLoginDto) (w : World) : Prop :=
  ∀ loginData, reaches_integrity this now dto w loginData →
    (micMatch (dto_mic dto) (transmitted_fields dto) = Ok false
     ↔ (login this now dto w).1 = Throw integrity_fault).

(** "A single undifferentiated AuthenticationError in both cases". *)
Definition single_authentication_error (this : ClientService) (now : Z)
    (w : World) : Prop :=
  ∃ err, ∀ dto loginData,
    reaches_credentials this now dto w loginData →
    unknown_client loginData w ∨ wrong_password loginData w →
    (login this now dto w).1 = Throw err.

End Server.

(** ** Laws of the platform

    What the round-trip theorems assume of the platform, each at the
    arguments it is used with. *)
Section Laws.
Context `{Platform}.

(** [Buffer.from(buf.toString("base64"), "base64")] gives [buf] back. *)
Definition base64_round_trips (buf : list byte) : Prop :=
  base64_decode (base64_encode buf) = buf.

(** Deciphering under the key and iv of the ciphering gives the input
    back. *)
Definition aes_round_trips (key iv input : list byte) : Prop :=
  aes_256_cbc_decrypt key iv (aes_256_cbc_encrypt key iv input) = Some input.

(** [d] is serializable: [JSON.stringify(d)] is the string [s] and
    [JSON.parse(s)] is [d]. *)
Definition serializes_to (d : value) (s : string) : Prop :=
  JSON.stringify d = Some s ∧ JSON_parse s = Some d.

(** The two strings whose hashes [protectAsymmetric] and [check] compare
    for a ciphertext [c]: [JSON.stringify(JSON.stringify(c))] and
    [JSON.stringify(JSON.stringify({ data: c, nonce: undefined }))]. *)
Definition sealed_tag_input (c : string) : string :=
  JSON.quote (JSON.quote c).

Definition checked_tag_input (c : string) : string :=
  JSON.quote ("{" +:+ JSON.quote "data" +:+ ":" +:+ JSON.quote c +:+ "}").

End Laws.

(** ** The failure policy and the freshness of keys, as statements *)

(** The message an exception carries. *)
Definition exn_message (x : exn) : string :=
  match x with
  | Error msg | SyntaxError msg | NotFoundException msg
  | UnauthorizedException msg => msg
  | BadRequestException msgs => join ", " msgs
  | ConfigError key => key
  | TypeError | CryptoError | ReplayError => ""
  end.

(** [part] occurs in [text]. *)
Fixpoint contains (part text : string) : bool :=
  String.prefix part text
  || match text with
     | String _ text' => contains part text'
     | EmptyString => false
     end.

(** The random source [g'] is [g] with more bytes drawn. *)
Definition draws_forward (g g' : Entropy) : Prop :=
  tape g' = tape g ∧ (drawn g ≤ drawn g')%nat.

Section Policies.
Context `{Imports}.

(** The text [decipherData] hands to [JSON.parse]: there is one when the
    envelope has a nonce of 16 bytes, the key is a secret key of 32 bytes
    and the data deciphers. *)
Definition deciphered (e : ProtectedData) (k : KeyObject) : option string :=
  match nonce e, k with
  | Some n, SecretKeyObject key =>
      if decide (List.length key = 32%nat
                 ∧ List.length (base64_decode n) = 16%nat)
      then string_of_list_byte
             <$> aes_256_cbc_decrypt key (base64_decode n)
                   (base64_decode (data e))
      else None
  | _, _ => None
  end.

(** "No partial plaintext" on a failure, at its weakest: when opening
    throws, the message of the exception does not hold the deciphered
    text. *)
Definition failure_quotes_no_plaintext (e : ProtectedData) (k : KeyObject)
  : Prop :=
  ∀ x text,
    unprotect e k = Throw x → deciphered e k = Some text → text ≠ "" →
    contains text (exn_message x) = false.

(** [protectAsymmetricServer] takes bytes from the random source and does
    nothing else to it. *)
Definition sealing_draws_forward : Prop :=
  ∀ v k g, draws_forward g (protectAsymmetricServer v k g).2.

End Policies.

(** ** An executable platform

    SHA-256 (FIPS 180-4), base64 (RFC 4648, read the lenient way [Buffer]
    reads it) and [JSON.parse] are written out; the ciphers, the key
    encodings and the date format are stand-ins that have the round-trip
    behaviour of the real ones.  The theorems below hold for every
    platform; this one runs them. *)
Module Reference.

Definition Z_of_byte (b : byte) : Z := Z.of_N (Byte.to_N b).
Definition byte_of_Z (z : Z) : byte := default x00 (Byte.of_N (Z.to_N z)).

Module SHA256.

Definition w32 (x : Z) : Z := x mod 2 ^ 32.
Definition rotr (x n : Z) : Z :=
  Z.lor (Z.shiftr x n) (w32 (Z.shiftl x (32 - n))).
Definition add (x y : Z) : Z := w32 (x + y).

Definition K : list Z :=
  [ 1116352408; 1899447441; 3049323471; 3921009573; 961987163; 1508970993;
    2453635748; 2870763221; 3624381080; 310598401; 607225278; 1426881987;
    1925078388; 2162078206; 2614888103; 3248222580; 3835390401; 4022224774;
    264347078; 604807628; 770255983; 1249150122; 1555081692; 1996064986;
    2554220882; 2821834349; 2952996808; 3210313671; 3336571891; 3584528711;
    113926993; 338241895; 666307205; 773529912; 1294757372; 1396182291;
    1695183700; 1986661051; 2177026350; 2456956037; 2730485921; 2820302411;
    3259730800; 3345764771; 3516065817; 3600352804; 4094571909; 275423344;
    430227734; 506948616; 659060556; 883997877; 958139571; 1322822218;
    1537002063; 1747873779; 1955562222; 2024104815; 2227730452; 2361852424;
    2428436474; 2756734187; 3204031479; 3329325298 ].

Record regs := { ra : Z; rb : Z; rc : Z; rd : Z; re : Z; rf : Z; rg : Z; rh : Z }.

Definition H0 : regs :=
  {| ra := 1779033703; rb := 3144134277; rc := 1013904242;
     rd := 2773480762; re := 1359893119; rf := 2600822924;
     rg := 528734635; rh := 1541459225 |}.

Definition pad (msg : list Z) : list Z :=
  let len := Z.of_nat (List.length msg) in
  let zeros := Z.to_nat ((55 - len) mod 64) in
  let bits := len * 8 in
  msg ++ [128] ++ repeat 0 zeros
      ++ map (λ i, Z.shiftr bits (8 * i) mod 256) [7; 6; 5; 4; 3; 2; 1; 0].

Fixpoint words (bytes : list Z) : list Z :=
  match bytes with
  | a :: b :: c :: d :: rest =>
      (Z.shiftl a 24 + Z.shiftl b 16 + Z.shiftl c 8 + d) :: words rest
  | _ => []
  end.

(** Extends the message schedule by [n] words. *)
Fixpoint schedule (n : nat) (w : list Z) : list Z :=
  match n with
  | O => w
  | S n' =>
      let j := List.length w in
      let at_ k := nth (j - k) w 0 in
      let s0 := Z.lxor (Z.lxor (rotr (at_ 15%nat) 7) (rotr (at_ 15%nat) 18))
                       (Z.shiftr (at_ 15%nat) 3) in
      let s1 := Z.lxor (Z.lxor (rotr (at_ 2%nat) 17) (rotr (at_ 2%nat) 19))
                       (Z.shiftr (at_ 2%nat) 10) in
      schedule n' (w ++ [add (add (add (at_ 16%nat) s0) (at_ 7%nat)) s1])
  end.

Definition round (s : regs) (kw : Z * Z) : regs :=
  let S1 := Z.lxor (Z.lxor (rotr (re s) 6) (rotr (re s) 11)) (rotr (re s) 25) in
  let ch := Z.lxor (Z.land (re s) (rf s))
                   (Z.land (Z.lxor (re s) (2 ^ 32 - 1)) (rg s)) in
  let t1 := add (add (add (add (rh s) S1) ch) kw.1) kw.2 in
  let S0 := Z.lxor (Z.lxor (rotr (ra s) 2) (rotr (ra s) 13)) (rotr (ra s) 22) in
  let maj := Z.lxor (Z.lxor (Z.land (ra s) (rb s)) (Z.land (ra s) (rc s)))
                    (Z.land (rb s) (rc s)) in
  let t2 := add S0 maj in
  {| ra := add t1 t2; rb := ra s; rc := rb s; rd := rc s;
     re := add (rd s) t1; rf := re s; rg := rf s; rh := rg s |}.

Definition compress (h : regs) (block : list Z) : regs :=
  let w := schedule 48 (words block) in
  let s := fold_left round (combine K w) h in
  {| ra := add (ra h) (ra s); rb := add (rb h) (rb s);
     rc := add (rc h) (rc s); rd := add (rd h) (rd s);
     re := add (re h) (re s); rf := add (rf h) (rf s);
     rg := add (rg h) (rg s); rh := add (rh h) (rh s) |}.

Fixpoint blocks (n : nat) (h : regs) (bytes : list Z) : regs :=
  match n with
  | O => h
  | S n' => blocks n' (compress h (firstn 64 bytes)) (skipn 64 bytes)
  end.

Definition word_bytes (x : Z) : list Z :=
  map (λ i, Z.shiftr x (8 * i) mod 256) [3; 2; 1; 0].

Definition digest (msg : list byte) : list byte :=
  let padded := pad (map Z_of_byte msg) in
  let h := blocks (List.length padded / 64)%nat H0 padded in
  map byte_of_Z
    (List.concat (map word_bytes
      [ra h; rb h; rc h; rd h; re h; rf h; rg h; rh h])).

End SHA256.

Module Base64.

Definition alphabet : string :=
  "ABCDEFGHIJKLMNOPQRSTUVWXYZabcdefghijklmnopqrstuvwxyz0123456789+/".

Definition digit (n : Z) : ascii :=
  default "="%char (String.get (Z.to_nat n) alphabet).

Fixpoint encode_Z (bytes : list Z) : string :=
  match bytes with
  | [] => ""
  | [a] =>
      String (digit (Z.shiftr a 2))
        (String (digit (Z.land (Z.shiftl a 4) 63)) "==")
  | [a; b] =>
      String (digit (Z.shiftr a 2))
        (String (digit (Z.land (Z.lor (Z.shiftl a 4) (Z.shiftr b 4)) 63))
          (String (digit (Z.land (Z.shiftl b 2) 63)) "="))
  | a :: b :: c :: rest =>
      String (digit (Z.shiftr a 2))
        (String (digit (Z.land (Z.lor (Z.shiftl a 4) (Z.shiftr b 4)) 63))
          (String (digit (Z.land (Z.lor (Z.shiftl b 2) (Z.shiftr c 6)) 63))
            (String (digit (Z.land c 63)) (encode_Z rest))))
  end.

Definition encode (bytes : list byte) : string :=
  encode_Z (map Z_of_byte bytes).

(** The value of a digit; the URL-safe digits are read too. *)
Definition value_of (c : ascii) : option Z :=
  let n := Z.of_N (N_of_ascii c) in
  if decide (65 ≤ n ≤ 90) then Some (n - 65)
  else if decide (97 ≤ n ≤ 122) then Some (n - 71)
  else if decide (48 ≤ n ≤ 57) then Some (n + 4)
  else if decide (n = 43 ∨ n = 45) then Some 62
  else if decide (n = 47 ∨ n = 95) then Some 63
  else None.

(** The digits up to the first [=], other characters skipped. *)
Fixpoint sextets (s : string) : list Z :=
  match s with
  | EmptyString => []
  | String c s' =>
      if decide (c = "="%char) then []
      else match value_of c with
           | Some v => v :: sextets s'
           | None => sextets s'
           end
  end.

Fixpoint decode_Z (d : list Z) : list Z :=
  match d with
  | a :: b :: c :: e :: rest =>
      Z.lor (Z.shiftl a 2) (Z.shiftr b 4)
      :: Z.land (Z.lor (Z.shiftl b 4) (Z.shiftr c 2)) 255
      :: Z.land (Z.lor (Z.shiftl c 6) e) 255
      :: decode_Z rest
  | [a; b; c] =>
      [Z.lor (Z.shiftl a 2) (Z.shiftr b 4);
       Z.land (Z.lor (Z.shiftl b 4) (Z.shiftr c 2)) 255]
  | [a; b] => [Z.lor (Z.shiftl a 2) (Z.shiftr b 4)]
  | _ => []
  end.

Definition decode (s : string) : list byte :=
  map byte_of_Z (decode_Z (sextets s)).

End Base64.

(** [JSON.parse], for the values of type [value] (integral numbers, code
    units below 256). *)
Module Parse.

Definition is_ws (c : ascii) : bool :=
  let n := N_of_ascii c in
  ((n =? 32) || (n =? 9) || (n =? 10) || (n =? 13))%N.

Fixpoint skip_ws (s : string) : string :=
  match s with
  | String c s' => if is_ws c then skip_ws s' else s
  | EmptyString => s
  end.

Definition digit_of (c : ascii) : option Z :=
  let n := Z.of_N (N_of_ascii c) in
  if decide (48 ≤ n ≤ 57) then Some (n - 48) else None.

Definition hex_of (c : ascii) : option Z :=
  let n := Z.of_N (N_of_ascii c) in
  if decide (48 ≤ n ≤ 57) then Some (n - 48)
  else if decide (97 ≤ n ≤ 102) then Some (n - 87)
  else if decide (65 ≤ n ≤ 70) then Some (n - 55)
  else None.

(** The digits at the head of [s], read after [acc]. *)
Fixpoint digits (acc : Z) (s : string) : Z * string :=
  match s with
  | String c s' =>
      match digit_of c with
      | Some d => digits (10 * acc + d) s'
      | None => (acc, s)
      end
  | EmptyString => (acc, s)
  end.

Definition starts_number_tail (s : string) : bool :=
  match s with
  | String c _ =>
      bool_decide (c = "."%char ∨ c = "e"%char ∨ c = "E"%char)
      || bool_decide (is_Some (digit_of c))
  | EmptyString => false
  end.

(** A number without sign: a single [0], or digits that do not start
    with [0]; no fraction and no exponent. *)
Definition natural (s : string) : option (Z * string) :=
  match s with
  | String c s' =>
      match digit_of c with
      | Some 0 => if starts_number_tail s' then None else Some (0, s')
      | Some d =>
          let '(n, rest) := digits d s' in
          if starts_number_tail rest then None else Some (n, rest)
      | None => None
      end
  | EmptyString => None
  end.

Definition ascii_of_Z (z : Z) : ascii := ascii_of_N (Z.to_N z).

(** The rest of a string literal, after its opening quote. *)
Fixpoint literal (s : string) : option (string * string) :=
  match s with
  | EmptyString => None
  | String c s' =>
      if decide (c = JSON.dquote) then Some ("", s')
      else if decide (c = JSON.backslash) then
        match s' with
        | String e s'' =>
            let simple (x : ascii) :=
              match literal s'' with
              | Some (t, rest) => Some (String x t, rest)
              | None => None
              end in
            if decide (e = JSON.dquote) then simple JSON.dquote
            else if decide (e = JSON.backslash) then simple JSON.backslash
            else if decide (e = "/"%char) then simple "/"%char
            else if decide (e = "b"%char) then simple "008"%char
            else if decide (e = "f"%char) then simple "012"%char
            else if decide (e = "n"%char) then simple "010"%char
            else if decide (e = "r"%char) then simple "013"%char
            else if decide (e = "t"%char) then simple "009"%char
            else if decide (e = "u"%char) then
              match s'' with
              | String h1 (String h2 (String h3 (String h4 s3))) =>
                  match hex_of h1, hex_of h2, hex_of h3, hex_of h4, literal s3 with
                  | Some 0, Some 0, Some a, Some b, Some (t, rest) =>
                      Some (String (ascii_of_Z (16 * a + b)) t, rest)
                  | _, _, _, _, _ => None
                  end
              | _ => None
              end
            else None
        | EmptyString => None
        end
      else if (N_of_ascii c <? 32)%N then None
      else match literal s' with
           | Some (t, rest) => Some (String c t, rest)
           | None => None
           end
  end.

(** A later member with the same name replaces the earlier one. *)
Fixpoint set_field (k : string) (v : value) (fields : list (string * value))
  : list (string * value) :=
  match fields with
  | [] => [(k, v)]
  | (k', v') :: rest =>
      if decide (k = k') then (k, v) :: rest
      else (k', v') :: set_field k v rest
  end.

Definition keyword (kw : string) (v : value) (s : string)
  : option (value * string) :=
  if String.prefix kw s
  then Some (v, String.substring (String.length kw)
                                 (String.length s - String.length kw) s)
  else None.

Fixpoint parse_value (fuel : nat) (s : string) : option (value * string) :=
  match fuel with
  | O => None
  | S fuel' =>
      match skip_ws s with
      | EmptyString => None
      | String c s' =>
          if decide (c = JSON.dquote) then
            match literal s' with
            | Some (t, rest) => Some (VStr t, rest)
            | None => None
            end
          else if decide (c = "["%char) then
            match skip_ws s' with
            | String "]" rest => Some (VArr [], rest)
            | _ =>
                match items fuel' s' with
                | Some (l, rest) => Some (VArr l, rest)
                | None => None
                end
            end
          else if decide (c = "{"%char) then
            match skip_ws s' with
            | String "}" rest => Some (VObj [], rest)
            | _ =>
                match members fuel' [] s' with
                | Some (l, rest) => Some (VObj l, rest)
                | None => None
                end
            end
          else if decide (c = "-"%char) then
            match natural s' with
            | Some (n, rest) => Some (VNum (- n), rest)
            | None => None
            end
          else if decide (c = "n"%char) then keyword "null" VNull (String c s')
          else if decide (c = "t"%char) then keyword "true" (VBool true) (String c s')
          else if decide (c = "f"%char) then keyword "false" (VBool false) (String c s')
          else
            match natural (String c s') with
            | Some (n, rest) => Some (VNum n, rest)
            | None => None
            end
      end
  end
with items (fuel : nat) (s : string) : option (list value * string) :=
  match fuel with
  | O => None
  | S fuel' =>
      match parse_value fuel' s with
      | Some (v, rest) =>
          match skip_ws rest with
          | String "]" rest' => Some ([v], rest')
          | String "," rest' =>
              match items fuel' rest' with
              | Some (l, rest'') => Some (v :: l, rest'')
              | None => None
              end
          | _ => None
          end
      | None => None
      end
  end
with members (fuel : nat) (acc : list (string * value)) (s : string)
  : option (list (string * value) * string) :=
  match fuel with
  | O => None
  | S fuel' =>
      match skip_ws s with
      | String q s1 =>
          if decide (q = JSON.dquote) then
            match literal s1 with
            | Some (k, s2) =>
                match skip_ws s2 with
                | String ":" s3 =>
                    match parse_value fuel' s3 with
                    | Some (v, s4) =>
                        let acc' := set_field k v acc in
                        match skip_ws s4 with
                        | String "}" rest => Some (acc', rest)
                        | String "," rest => members fuel' acc' rest
                        | _ => None
                        end
                    | None => None
                    end
                | _ => None
                end
            | None => None
            end
          else None
      | EmptyString => None
      end
  end.

(** The message of the [SyntaxError], as V8 words it (Node 20) when the
    first character after the white space starts no JSON value: the
    character, then the text in quotes, or 10 characters of it on each side
    of the character when the text has 21 characters or more.  For the
    other texts [parse] refuses, this platform gives the message of an
    early end of the input, which holds nothing of the text. *)
Definition starts_value (c : ascii) : bool :=
  bool_decide (c = JSON.dquote ∨ c = "["%char ∨ c = "{"%char ∨ c = "-"%char
               ∨ c = "t"%char ∨ c = "f"%char ∨ c = "n"%char)
  || bool_decide (is_Some (digit_of c)).

Fixpoint leading_ws (s : string) : nat :=
  match s with
  | String c s' => if is_ws c then S (leading_ws s') else O
  | EmptyString => O
  end.

Definition in_quotes (s : string) : string :=
  String JSON.dquote (s +:+ String JSON.dquote "").

Definition error_message (s : string) : string :=
  let pos := leading_ws s in
  let len := String.length s in
  match skip_ws s with
  | EmptyString => "Unexpected end of JSON input"
  | String c _ =>
      if starts_value c then "Unexpected end of JSON input"
      else
        let token := "Unexpected token '" +:+ String c "', " in
        if (len <? 21)%nat then
          token +:+ in_quotes s +:+ " is not valid JSON"
        else if (pos <? 10)%nat then
          token +:+ in_quotes (String.substring 0 (pos + 10) s)
                +:+ "... is not valid JSON"
        else if (pos <? len - 10)%nat then
          token +:+ "..." +:+ in_quotes (String.substring (pos - 10) 20 s)
                +:+ "... is not valid JSON"
        else
          token +:+ "..."
                +:+ in_quotes (String.substring (pos - 10) (len - (pos - 10)) s)
                +:+ " is not valid JSON"
  end.

Definition parse (s : string) : option value :=
  match parse_value (2 * String.length s + 2) s with
  | Some (v, rest) =>
      match skip_ws rest with
      | EmptyString => Some v
      | _ => None
      end
  | None => None
  end.

End Parse.

(** Stand-ins for the ciphers: a byte mask derived from the key, PKCS#7
    padding for the block cipher, and for RSA a seed prefix, a key check
    byte and the 214-byte limit of OAEP under a 2048-bit modulus. *)
Module StandIn.

Definition mask (key : list byte) : Z :=
  fold_right (λ b acc, Z.lxor (Z_of_byte b) acc) 0 key.

Definition xor_with (m : Z) (l : list byte) : list byte :=
  map (λ b, byte_of_Z (Z.lxor (Z_of_byte b) m)) l.

Definition pkcs7_pad (l : list byte) : list byte :=
  let n := (16 - List.length l mod 16)%nat in
  l ++ repeat (byte_of_Z (Z.of_nat n)) n.

Definition pkcs7_unpad (l : list byte) : option (list byte) :=
  match last l with
  | Some b =>
      let n := Z.to_nat (Z_of_byte b) in
      if decide ((1 ≤ n ≤ 16)%nat ∧ (n ≤ List.length l)%nat
                 ∧ skipn (List.length l - n) l = repeat b n)
      then Some (firstn (List.length l - n) l)
      else None
  | None => None
  end.

Definition aes_encrypt (key iv pt : list byte) : list byte :=
  xor_with (mask (key ++ iv)) (pkcs7_pad pt).

Definition aes_decrypt (key iv ct : list byte) : option (list byte) :=
  pkcs7_unpad (xor_with (mask (key ++ iv)) ct).

Definition rsa_encrypt (pub seed m : list byte) : option (list byte) :=
  if decide (List.length m ≤ 214)%nat
  then Some (seed ++ byte_of_Z (mask pub) :: xor_with (mask pub) m)%list
  else None.

Definition rsa_decrypt (priv c : list byte) : option (list byte) :=
  match skipn 20 c with
  | tag :: body =>
      if decide (Z_of_byte tag = mask priv)
      then Some (xor_with (mask priv) body)
      else None
  | [] => None
  end.

Definition pem (label : string) (key : list byte) : string :=
  label +:+ Base64.encode key.

Definition of_pem (label : string) (bytes : list byte) : option (list byte) :=
  let s := string_of_list_byte bytes in
  if String.prefix label s
  then Some (Base64.decode
         (String.substring (String.length label)
                           (String.length s - String.length label) s))
  else None.

Definition fromISO (s : string) : option Z :=
  match Parse.parse s with
  | Some (VNum n) => Some n
  | _ => None
  end.

End StandIn.

Global Instance platform : Platform := {|
  sha256 := SHA256.digest;
  base64_encode := Base64.encode;
  base64_decode := Base64.decode;
  aes_256_cbc_encrypt := StandIn.aes_encrypt;
  aes_256_cbc_decrypt := StandIn.aes_decrypt;
  rsa_oaep_encrypt := StandIn.rsa_encrypt;
  rsa_oaep_decrypt := StandIn.rsa_decrypt;
  rsa_public_of_private := StandIn.xor_with 255;
  rsa_generate := λ _ seed,
    (firstn 32 seed, StandIn.xor_with 255 (firstn 32 seed));
  export_spki_pem := StandIn.pem "PUBLIC KEY:";
  export_pkcs8_pem := StandIn.pem "PRIVATE KEY:";
  import_spki_pem := StandIn.of_pem "PUBLIC KEY:";
  import_pkcs8_pem := StandIn.of_pem "PRIVATE KEY:";
  JSON_parse := Parse.parse;
  JSON_parse_error := Parse.error_message;
  toISO := pretty;
  fromISO := StandIn.fromISO;
|}.

(** A [LoginDto] with two string properties, as the login payload of the
    clients has. *)
Definition validate_login (v : value) : list (list string) :=
  let check k :=
    match v with
    | VObj fields =>
        match assoc k fields with
        | VStr _ => []
        | _ => [[k +:+ " must be a string"]]
        end
    | _ => [[k +:+ " must be a string"]]
    end in
  check "clientId" ++ check "password".

Global Instance imports : Imports := {|
  validateSync := validate_login;
  protectAsymmetricServer := protectAsymmetric;
  nonceTTL := 300000;
|}.

(** A random tape, a configuration and a client to run the service on. *)
Definition tape0_bytes : list byte :=
  Eval vm_compute in
    map (λ i, byte_of_Z ((37 * Z.of_nat i + 11) mod 256)) (seq 0 1024).

Definition tape0 (i : nat) : byte := nth i tape0_bytes x00.

Definition alice : Client :=
  {| name := "Alice"; password := "Iuz27OxPNxPE5+H/2lsiMmWhb3+qbmlABsjWkfL5COo=" |}.

Definition entropy0 : Entropy := {| tape := tape0; drawn := 0 |}.

(** A login payload, its serialization, and a 256-bit key. *)
Definition payload0 : value :=
  VObj [("clientId", VStr "alice"); ("password", VStr "alice12345")].

Definition payload0_json : string :=
  Eval vm_compute in default "" (JSON.stringify payload0).

Definition key0 : list byte := Eval vm_compute in next_bytes 32 entropy0.

(** The key pair [generateAsymmetricKeys] returns on this tape. *)
Definition server_keys0 : result AsymmetricKeys :=
  Eval vm_compute in (generateAsymmetricKeys entropy0).1.

Definition server_public0 : KeyObject :=
  match server_keys0 with
  | Ok keys => publicKey keys
  | Throw _ => SecretKeyObject []
  end.

Definition server_private0 : KeyObject :=
  match server_keys0 with
  | Ok keys => privateKey keys
  | Throw _ => SecretKeyObject []
  end.

Definition service0 : ClientService := {| this_privateKey := server_private0 |}.

(** A client: its key pair, the [publicKey] property it sends, and the
    request it builds for a payload, tagging what [tagged] makes of the
    request. *)
Definition client_keys0 : result AsymmetricKeys :=
  Eval vm_compute in (generateAsymmetricKeys (advance 256 entropy0)).1.

Definition client_publicKey0 : string :=
  Eval vm_compute in
    match client_keys0 with
    | Ok keys =>
        match export_spki (publicKey keys) with
        | Ok pem => base64_encode (list_byte_of_string pem)
        | Throw _ => ""
        end
    | Throw _ => ""
    end.

Definition build_request (payload : value) (n : list byte)
    (tagged : EncodedLoginDto → value) : EncodedLoginDto :=
  let sealed :=
    match (encryptAsymmetricData payload server_public0 (advance 512 entropy0)).1 with
    | Ok c => c
    | Throw _ => ""
    end in
  let untagged :=
    {| dto_mic := ""; dto_nonce := base64_encode n; dto_data := sealed;
       dto_publicKey := client_publicKey0 |} in
  {| dto_mic := match createMIC (tagged untagged) with
                | Ok m => m
                | Throw _ => ""
                end;
     dto_nonce := dto_nonce untagged; dto_data := dto_data untagged;
     dto_publicKey := dto_publicKey untagged |}.

Definition nonce0 : list byte := Eval vm_compute in next_bytes 16 (advance 600 entropy0).

(** The request of Alice with her password, tagged as [login] expects. *)
Definition request_alice : EncodedLoginDto :=
  Eval vm_compute in build_request payload0 nonce0 (λ dto, micPayload dto payload0).

(** The same, tagged over the transmitted fields. *)
Definition request_tagged_as_sent : EncodedLoginDto :=
  Eval vm_compute in build_request payload0 nonce0 transmitted_fields.

Definition payload_mallory : value :=
  VObj [("clientId", VStr "mallory"); ("password", VStr "alice12345")].

Definition request_unknown_client : EncodedLoginDto :=
  Eval vm_compute in
    build_request payload_mallory nonce0 (λ dto, micPayload dto payload_mallory).

Definition payload_guess : value :=
  VObj [("clientId", VStr "alice"); ("password", VStr "letmein")].

Definition request_wrong_password : EncodedLoginDto :=
  Eval vm_compute in
    build_request payload_guess nonce0 (λ dto, micPayload dto payload_guess).

Definition now0 : Z := 1700000000000.

(** The world the service starts in, and the world it serves in. *)
Definition world_boot : World :=
  {| os_entropy := entropy0;
     configService := {[ "KEYS_PATH" := "keys" ]};
     fs_writes := [];
     logger := [];
     nonceCache := ∅;
     clientModel := {[ "alice" := alice ]};
     sessionModel := ∅ |}.

Definition world0 : World := set_entropy (advance 700 entropy0) world_boot.

Definition private_pem0 : string :=
  Eval vm_compute in
    match export_pkcs8 server_private0 with
    | Ok pem => pem
    | Throw _ => ""
    end.

(** What [protectAsymmetric] returns for the payload under the public key
    of the server. *)
Definition sealed0 : ProtectedData :=
  Eval vm_compute in
    match (protectAsymmetric payload0 server_public0 (advance 512 entropy0)).1 with
    | Ok e => e
    | Throw _ => {| mic := ""; nonce := None; data := "" |}
    end.

(** The tag it carries, and the tag [check] recomputes for it. *)
Definition sealed0_tag : string :=
  Eval vm_compute in sha256_base64 (sealed_tag_input (data sealed0)).

Definition checked0_tag : string :=
  Eval vm_compute in sha256_base64 (checked_tag_input (data sealed0)).

(** The response to the request of Alice. *)
Definition response_alice : LoginResponse :=
  Eval vm_compute in
    match (login service0 now0 request_alice world0).1 with
    | Ok response => response
    | Throw _ => {| res_mic := ""; res_data := "" |}
    end.

End Reference.


(** ** Signatures

    [signData] and [checkSignature] of the library, over the RSA-SHA256
    primitives of [crypto.createSign] and [crypto.createVerify]. *)
Class Signing := {
  (** [sign.sign(privateKey)] over the bytes given to [sign.update] *)
  rsa_sha256_sign : RsaPrivateKey → list byte → list byte;
  (** [verify.verify(publicKey, signature)]: key, message, signature *)
  rsa_sha256_verify : RsaPublicKey → list byte → list byte → bool;
}.

Section Signatures.
Context `{Platform} `{Signing}.

Definition signData (data : value) (privateKey : KeyObject) : result string :=
  s ← string_arg data;
  priv ← private_key_of privateKey;
  Ok (base64_encode (rsa_sha256_sign priv (list_byte_of_string s))).

Definition checkSignature (data : value) (signature : string)
    (publicKey : KeyObject) : result bool :=
  s ← string_arg data;
  pub ← public_key_of publicKey;
  Ok (rsa_sha256_verify pub (list_byte_of_string s) (base64_decode signature)).

(** The signature of the message verifies under the public key. *)
Definition signature_verifies (priv : RsaPrivateKey) (pub : RsaPublicKey)
    (message : list byte) : Prop :=
  rsa_sha256_verify pub message (rsa_sha256_sign priv message) = true.

End Signatures.

(** ** Vocabulary of the further properties *)

Section MoreStatements.
Context `{Platform}.

(** The string [check] hashes for an envelope:
    [JSON.stringify(JSON.stringify({ data, nonce }))]. *)
Definition check_tag_input (e : ProtectedData) : string :=
  JSON.quote (default "" (JSON.stringify (cipher_obj (data e) (nonce e)))).

(** What follows the data in the serialization of [{ data, nonce }]. *)
Definition after_data (n : option string) : string :=
  match n with
  | Some x => "," +:+ JSON.quote "nonce" +:+ ":" +:+ JSON.quote x +:+ "}"
  | None => "}"
  end.

(** An envelope that differs from [e] in its data only. *)
Definition with_data (c : string) (e : ProtectedData) : ProtectedData :=
  {| mic := mic e; nonce := nonce e; data := c |}.

(** The key pair [generateKeyPairSync] makes of the next random bytes. *)
Definition generated_keys (g : Entropy) : RsaPrivateKey * RsaPublicKey :=
  rsa_generate modulusLength (next_bytes 256 g).

(** The PEM encodings give the two keys back. *)
Definition pem_round_trips (keys : RsaPrivateKey * RsaPublicKey) : Prop :=
  import_spki_pem (list_byte_of_string (export_spki_pem keys.2)) = Some keys.2
  ∧ import_pkcs8_pem (list_byte_of_string (export_pkcs8_pem keys.1)) = Some keys.1.

(** The object [responseData] of [login]. *)
Definition responseData (session_id : string) (key : list byte) : value :=
  VObj [("sessionId", VStr session_id);
        ("sessionKey", VStr (base64_encode key))].

End MoreStatements.

(** ** Further inputs on the executable platform *)
Module Examples.
Import Reference.

(** A stand-in for RSA-SHA256: the digest of the private key and the
    message; the private key is recovered from the public one as the
    stand-in key pairs allow. *)
Global Instance signing : Signing := {|
  rsa_sha256_sign := λ priv message, SHA256.digest (priv ++ message)%list;
  rsa_sha256_verify := λ pub message signature,
    bool_decide (signature = SHA256.digest (StandIn.xor_with 255 pub ++ message)%list);
|}.

(** The envelope [protect] returns for the payload, and the same with
    another ciphertext. *)
Definition protected0 : ProtectedData :=
  Eval vm_compute in
    match (protect payload0 (SecretKeyObject key0) entropy0).1 with
    | Ok e => e
    | Throw _ => {| mic := ""; nonce := None; data := "" |}
    end.

Definition tampered0 : ProtectedData := with_data "i9KR0srBjfn5+fn5+fn5+g==" protected0.

(** A world whose configuration has no [KEYS_PATH]. *)
Definition world_unconfigured : World :=
  {| os_entropy := entropy0;
     configService := ∅;
     fs_writes := [];
     logger := [];
     nonceCache := ∅;
     clientModel := ∅;
     sessionModel := ∅ |}.

(** The world after the request of Alice was answered. *)
Definition world_alice : World := (login service0 now0 request_alice world0).2.

(** The ciphertext of the payload under the public key of the server. *)
Definition server_rsa_public0 : RsaPublicKey := (generated_keys entropy0).2.

Definition ciphertext0 : list byte :=
  Eval vm_compute in
    default [] (rsa_oaep_encrypt server_rsa_public0
                  (next_bytes oaep_seed_length (advance 512 entropy0))
                  (list_byte_of_string payload0_json)).

(** The key of the client as [login] reads it from the request of Alice,
    and the sealed response to that request. *)
Definition client_key0 : KeyObject :=
  Eval vm_compute in
    match createPublicKey (base64_decode (dto_publicKey request_alice)) with
    | Ok k => k
    | Throw _ => SecretKeyObject []
    end.

Definition sealed_response0 : ProtectedData :=
  Eval vm_compute in
    match (protectAsymmetricServer
             (responseData (fresh (dom (sessionModel world0)))
                           (next_bytes 32 (os_entropy world0)))
             client_key0 (advance 32 (os_entropy world0))).1 with
    | Ok pd => pd
    | Throw _ => {| mic := ""; nonce := None; data := "" |}
    end.

(** An envelope with a matching tag whose data deciphers under [key0] to
    a text that is not JSON. *)
Definition card_text : string := "card 4111".

Definition leaky0 : ProtectedData :=
  Eval vm_compute in
    let iv := next_bytes 16 (advance 64 entropy0) in
    let sealed :=
      base64_encode (aes_256_cbc_encrypt key0 iv (list_byte_of_string card_text)) in
    {| mic := match createMIC (cipher_obj sealed (Some (base64_encode iv))) with
              | Ok m => m
              | Throw _ => ""
              end;
       nonce := Some (base64_encode iv);
       data := sealed |}.

(** A request whose data is not a ciphertext. *)
Definition request_garbage : EncodedLoginDto :=
  {| dto_mic := dto_mic request_alice; dto_nonce := dto_nonce request_alice;
     dto_data := "AAAA"; dto_publicKey := dto_publicKey request_alice |}.

End Examples.

(** * Properties *)

(** ** The library *)

Ltac unfold_monads :=
  unfold mbind, mret, rand_bind, rand_ret, result_bind, result_ret,
         M_bind, M_ret, rbind, liftR, of_option in *.

Section SecureLibFacts.
Context `{Platform}.

Lemma next_bytes_length n g : List.length (next_bytes n g) = n.
Proof. unfold next_bytes. by rewrite length_map, length_seq. Qed.

Lemma stringify_obj_defined fields : is_Some (JSON.stringify (VObj fields)).
Proof. simpl. eauto. Qed.

(** The tag of an object literal is always computed. *)
Lemma createMIC_obj fields :
  ∃ s, JSON.stringify (VObj fields) = Some s
       ∧ createMIC (VObj fields) = Ok (sha256_base64 (JSON.quote s)).
Proof.
  destruct (stringify_obj_defined fields) as [s Hs]. exists s. split; [done|].
  unfold createMIC, JSON_stringify, secureHash, string_arg. rewrite Hs. done.
Qed.

Lemma cipherData_ok d s key g :
  JSON.stringify d = Some s → List.length key = 32%nat →
  cipherData d (SecretKeyObject key) g =
    (Ok {| cr_data := base64_encode
             (aes_256_cbc_encrypt key (next_bytes 16 g) (list_byte_of_string s));
           cr_nonce := base64_encode (next_bytes 16 g) |},
     advance 16 g).
Proof.
  intros Hs Hk. unfold cipherData, randomBytes. unfold_monads. simpl.
  unfold aes_256_cbc_key, string_arg.
  rewrite Hs, decide_True by done. done.
Qed.

Lemma protect_ok d s key g :
  JSON.stringify d = Some s → List.length key = 32%nat →
  ∃ m,
    let iv := next_bytes 16 g in
    let ct := aes_256_cbc_encrypt key iv (list_byte_of_string s) in
    createMIC (cipher_obj (base64_encode ct) (Some (base64_encode iv))) = Ok m
    ∧ protect d (SecretKeyObject key) g =
        (Ok {| mic := m; nonce := Some (base64_encode iv);
               data := base64_encode ct |},
         advance 16 g).
Proof.
  intros Hs Hk.
  destruct (createMIC_obj
    [("data", VStr (base64_encode (aes_256_cbc_encrypt key (next_bytes 16 g)
                                     (list_byte_of_string s))));
     ("nonce", VStr (base64_encode (next_bytes 16 g)))]) as (js & _ & Hm).
  eexists. split; [exact Hm|].
  unfold protect. unfold mbind at 1. unfold rand_bind.
  rewrite (cipherData_ok d s key g Hs Hk). unfold liftR. simpl cr_data.
  simpl cr_nonce. unfold cipher_obj, opt_str.
  unfold mbind, result_bind, rbind. by rewrite Hm.
Qed.

(** Whatever [protect] returns passes [check]. *)
Lemma check_of_protect d k g e g' :
  protect d k g = (Ok e, g') → check e = Ok true.
Proof.
  unfold protect. unfold mbind at 1. unfold rand_bind.
  destruct (cipherData d k g) as [[c|x] g1]; [|done].
  unfold liftR, mbind, result_bind, rbind.
  destruct (createMIC _) as [m|x] eqn:Hm; [|done].
  intros [= <- _]. unfold check, micMatch. cbn [mic nonce data].
  unfold mbind, result_bind, rbind. rewrite Hm.
  by rewrite String.eqb_refl.
Qed.

(** An envelope that passes [check] is opened by [decipherData]. *)
Lemma unprotect_checked e key :
  check e = Ok true → unprotect e key = decipherData e key.
Proof.
  intros Hc. unfold unprotect, mbind, result_bind, rbind. by rewrite Hc.
Qed.

Lemma stringify_cipher_obj_no_nonce c :
  JSON.stringify (cipher_obj c None)
  = Some ("{" +:+ JSON.quote "data" +:+ ":" +:+ JSON.quote c +:+ "}").
Proof.
  cbn. reflexivity.
Qed.

(** The tag [protectAsymmetric] writes and the tag [check] recomputes are
    hashes of two strings that differ in their second character. *)
Lemma tag_inputs_differ c : sealed_tag_input c ≠ checked_tag_input c.
Proof. unfold sealed_tag_input, checked_tag_input. cbn. discriminate. Qed.

Lemma protectAsymmetric_inv d k g e g' :
  protectAsymmetric d k g = (Ok e, g') →
  e = {| mic := sha256_base64 (sealed_tag_input (data e));
         nonce := None; data := data e |}.
Proof.
  unfold protectAsymmetric. unfold mbind at 1. unfold rand_bind.
  destruct (encryptAsymmetricData d k g) as [[c|x] g1]; [|done].
  unfold liftR. case_decide; [done|].
  unfold secureHash, JSON_stringify, string_arg. cbn -[JSON.quote].
  by intros [= <- _].
Qed.

(** What [decipherData] throws, and when. *)
Lemma decipherData_throws e k x :
  decipherData e k = Throw x →
  x = TypeError ∨ x = CryptoError
  ∨ ∃ text, deciphered e k = Some text ∧ JSON_parse text = None
            ∧ x = SyntaxError (JSON_parse_error text).
Proof.
  unfold decipherData, deciphered, JSON_parse_or_throw, aes_256_cbc_key,
    mbind, result_bind, rbind, of_option.
  destruct (nonce e) as [n|]; cbn [fmap option_fmap option_map];
    [|intros [= <-]; by left].
  destruct k as [key| |]; [|intros [= <-]; by left..].
  case_decide as Hlen; [|intros [= <-]; by right; left].
  destruct (aes_256_cbc_decrypt _ _ _) as [plain|];
    [|intros [= <-]; by right; left].
  cbn [fmap option_fmap option_map].
  destruct (JSON_parse _) as [v|] eqn:Hparse; [done|].
  intros [= <-]. right. right. eauto.
Qed.

(** [protectAsymmetric] draws the seed of the padding, whatever it
    returns. *)
Lemma protectAsymmetric_draws v k g :
  (protectAsymmetric v k g).2 = advance oaep_seed_length g.
Proof.
  unfold protectAsymmetric, encryptAsymmetricData, randomBytes, liftR,
    mbind, rand_bind.
  repeat case_match; by simplify_eq.
Qed.

End SecureLibFacts.

(** C10. An envelope that [protect] has just sealed, for a payload that
    [JSON.stringify] serializes and a 256-bit secret key, passes [check]:
    [protect] returns an envelope and [check] of it is [true].  [check]
    takes the envelope alone, no key. *)
Theorem check_accepts_protect `{Platform} (d : value) (key : list byte) (g : Entropy) :
  is_Some (JSON.stringify d) →
  List.length key = 32%nat →
  ∃ e g', protect d (SecretKeyObject key) g = (Ok e, g') ∧ check e = Ok true.
Proof.
  intros [s Hs] Hk.
  destruct (protect_ok d s key g Hs Hk) as (m & _ & Hp).
  eexists _, _. split; [exact Hp|]. by eapply check_of_protect.
Qed.

(** C8, as the code has it.  [unprotect] fails closed on the tag.  The tag
    is recomputed from the data and the nonce of the envelope; when it
    differs from [mic], the result is the integrity error, for every key,
    also one [decipherData] would throw on.  Otherwise the result is that of
    [decipherData]: the parsed complete plaintext, or an exception.  That
    exception is a [TypeError] or an error of the cipher, which hold
    nothing of the plaintext, or, when the data deciphers to a text that is
    not JSON, the [SyntaxError] of [JSON.parse], whose message the engine
    makes from the deciphered text. *)
Theorem unprotect_fails_closed `{Platform} (e : ProtectedData) (key : KeyObject) :
  ∃ tag,
    createMIC (cipher_obj (data e) (nonce e)) = Ok tag
    ∧ if decide (tag = mic e)
      then unprotect e key = decipherData e key
           ∧ ∀ x, unprotect e key = Throw x →
               x = TypeError ∨ x = CryptoError
               ∨ ∃ text, deciphered e key = Some text
                         ∧ JSON_parse text = None
                         ∧ x = SyntaxError (JSON_parse_error text)
      else unprotect e key = Throw (Error "Failed to decipher: compromised data!").
Proof.
  destruct (createMIC_obj [("data", VStr (data e)); ("nonce", opt_str (nonce e))])
    as (s & _ & Hm).
  eexists. split; [exact Hm|].
  unfold unprotect, check, micMatch, cipher_obj.
  unfold mbind, result_bind, rbind. rewrite Hm.
  case_decide as Htag.
  - rewrite Htag, String.eqb_refl. cbn [negb]. split; [done|].
    apply decipherData_throws.
  - apply String.eqb_neq in Htag. rewrite Htag. done.
Qed.

(** C7. Symmetric round trip: for a payload [d] that serializes to [s] and
    a 256-bit secret key, [protect] returns an envelope and [unprotect] of
    it under the same key is [d], when base64 gives back the nonce and the
    ciphertext and deciphering gives back the ciphered string. *)
Theorem unprotect_protect `{Platform} (d : value) (s : string)
    (key : list byte) (g : Entropy) :
  serializes_to d s →
  List.length key = 32%nat →
  base64_round_trips (next_bytes 16 g) →
  base64_round_trips
    (aes_256_cbc_encrypt key (next_bytes 16 g) (list_byte_of_string s)) →
  aes_round_trips key (next_bytes 16 g) (list_byte_of_string s) →
  ∃ e g',
    protect d (SecretKeyObject key) g = (Ok e, g')
    ∧ unprotect e (SecretKeyObject key) = Ok d.
Proof.
  intros [Hs Hparse] Hk Hiv Hct Haes.
  unfold base64_round_trips, aes_round_trips in *.
  destruct (protect_ok d s key g Hs Hk) as (m & Hm & Hp).
  eexists _, _. split; [exact Hp|].
  rewrite (unprotect_checked _ _ (check_of_protect _ _ _ _ _ Hp)).
  unfold decipherData. cbn [mic nonce data fmap option_fmap option_map].
  unfold mbind, result_bind, rbind, of_option.
  rewrite Hiv. unfold aes_256_cbc_key.
  rewrite decide_True by (by rewrite next_bytes_length).
  rewrite Hct, Haes, string_of_list_byte_of_string.
  unfold JSON_parse_or_throw. by rewrite Hparse.
Qed.

(** C4.  On the code the asymmetric round trip fails: whatever envelope
    [protectAsymmetric] returns, [unprotectAsymmetric] rejects it as
    compromised, under every key, unless SHA-256 collides on the two
    different strings the two functions tag ([tag_inputs_differ]). *)
Theorem unprotectAsymmetric_rejects_protectAsymmetric `{Platform}
    (d : value) (pub priv : KeyObject) (g g' : Entropy) (e : ProtectedData) :
  protectAsymmetric d pub g = (Ok e, g') →
  sha256_base64 (sealed_tag_input (data e))
    ≠ sha256_base64 (checked_tag_input (data e)) →
  unprotectAsymmetric e priv
    = Throw (Error "Failed to decipher: compromised data!").
Proof.
  intros He Hcoll. apply protectAsymmetric_inv in He.
  unfold unprotectAsymmetric, check, micMatch, createMIC, secureHash,
    JSON_stringify, string_arg.
  rewrite He. cbn [mic nonce data].
  rewrite stringify_cipher_obj_no_nonce.
  cbn [opt_str JSON.stringify of_option mbind result_bind rbind].
  fold (checked_tag_input (data e)).
  destruct (String.eqb_spec (sha256_base64 (checked_tag_input (data e)))
                           (sha256_base64 (sealed_tag_input (data e)))) as [Heq|Hne].
  - by destruct Hcoll.
  - done.
Qed.

(** ** The service *)

Section ServerFacts.
Context `{Imports}.

Lemma set_nonceCache_sessions c w :
  sessionModel (set_nonceCache c w) = sessionModel w.
Proof. done. Qed.

Lemma checkNonce_fresh now n w :
  fresh_nonce now n (nonceCache w) = true →
  checkNonce now n w
  = (Ok (), set_nonceCache (<[n := now + nonceTTL]> (nonceCache w)) w).
Proof. intros Hf. unfold checkNonce, recordIfFresh. by rewrite Hf. Qed.

Lemma checkNonce_replay now n w :
  fresh_nonce now n (nonceCache w) = false →
  checkNonce now n w = (Throw ReplayError, w).
Proof. intros Hf. unfold checkNonce, recordIfFresh. by rewrite Hf. Qed.

(** A request whose nonce is not fresh is refused before anything else
    is looked at. *)
Lemma login_replay this now dto w :
  fresh_nonce now (dto_nonce dto) (nonceCache w) = false →
  login this now dto w = (Throw ReplayError, w).
Proof.
  intros Hf. unfold login. unfold mbind at 1. unfold M_bind.
  by rewrite checkNonce_replay.
Qed.

Lemma login_decryption_fault this now dto w e :
  fresh_nonce now (dto_nonce dto) (nonceCache w) = true →
  decryptAsymmetricData (dto_protected dto) (this_privateKey this) = Throw e →
  login this now dto w = (Throw decryption_fault, nonce_recorded now dto w).
Proof.
  intros Hf Hd. unfold login. unfold mbind at 1. unfold M_bind.
  rewrite checkNonce_fresh by done.
  unfold mbind at 1. unfold M_bind, pure_call. by rewrite Hd.
Qed.

Lemma micMatch_obj tag fields :
  ∃ m, createMIC (VObj fields) = Ok m
       ∧ micMatch tag (VObj fields) = Ok (String.eqb m tag).
Proof.
  destruct (createMIC_obj fields) as (s & _ & Hm). eexists. split; [exact Hm|].
  unfold micMatch, mbind, result_bind, rbind. by rewrite Hm.
Qed.

(** [login], stage by stage. *)
Lemma login_unfold this now dto w :
  login this now dto w =
  if fresh_nonce now (dto_nonce dto) (nonceCache w) then
    let w1 := nonce_recorded now dto w in
    match decryptAsymmetricData (dto_protected dto) (this_privateKey this) with
    | Throw _ => (Throw decryption_fault, w1)
    | Ok loginData =>
      match micMatch (dto_mic dto) (micPayload dto loginData) with
      | Throw e => (Throw e, w1)
      | Ok false => (Throw integrity_fault, w1)
      | Ok true =>
        if decide (0 < List.length (validateSync loginData))%nat
        then (Throw (BadRequestException
                       (map (join ", ") (validateSync loginData))), w1)
        else
        match get_prop loginData "clientId" with
        | Throw e => (Throw e, w1)
        | Ok id =>
          match find_client id (clientModel w) with
          | None => (Throw (NotFoundException "Client not found"), w1)
          | Some client =>
            match get_prop loginData "password" with
            | Throw e => (Throw e, w1)
            | Ok supplied =>
              match secureHash supplied with
              | Throw e => (Throw e, w1)
              | Ok digest =>
                if negb (String.eqb (password client) digest)
                then (Throw (UnauthorizedException "Invalid credentials"), w1)
                else seal_response dto (fresh (dom (sessionModel w)))
                       (next_bytes 32 (os_entropy w))
                       (session_issued now dto w client)
              end
            end
          end
        end
      end
    end
  else (Throw ReplayError, w).
Proof.
  destruct (fresh_nonce now (dto_nonce dto) (nonceCache w)) eqn:Hf;
    [|by apply login_replay].
  unfold login. unfold mbind at 1. unfold M_bind.
  rewrite checkNonce_fresh by done. fold (nonce_recorded now dto w).
  unfold mbind at 1. unfold M_bind, pure_call.
  destruct (decryptAsymmetricData _ _) as [loginData|x]; [|done].
  cbn [catch_as]. unfold mbind at 1. unfold M_bind.
  destruct (micMatch _ _) as [[]|x]; [|done|done].
  cbn [negb]. case_decide; [done|].
  unfold mbind at 1. unfold M_bind.
  destruct (get_prop loginData "clientId") as [id|x]; [|done].
  unfold mbind at 1. unfold M_bind, findById, reads.
  cbn [nonce_recorded clientModel set_nonceCache].
  destruct (find_client id (clientModel w)) as [client|]; [|done].
  unfold mbind at 1. unfold M_bind.
  destruct (get_prop loginData "password") as [supplied|x]; [|done].
  unfold mbind at 1. unfold M_bind.
  destruct (secureHash supplied) as [digest|x]; [|done].
  destruct (negb _); [done|].
  reflexivity.
Qed.

(** Sealing the response leaves the collections and the replay cache as
    they are. *)
Lemma seal_response_world dto id key w r w' :
  seal_response dto id key w = (r, w') → ∃ g, w' = set_entropy g w.
Proof.
  unfold seal_response. unfold mbind at 1. unfold M_bind, pure_call.
  destruct (createPublicKey _) as [clientKey|x].
  - unfold mbind at 1. unfold M_bind, rand_call.
    destruct (protectAsymmetricServer _ _ _) as [[pd|x] g]; intros [= <- <-]; eauto.
  - intros [= <- <-]. exists (os_entropy w). by destruct w.
Qed.

Lemma nonce_recorded_sessions now dto w :
  sessionModel (nonce_recorded now dto w) = sessionModel w.
Proof. done. Qed.

(** What [checkSessions] leaves of the collection: the sessions that are
    not expired. *)
Lemma checkSessions_lookup now w id :
  sessionModel (checkSessions now w).2 !! id
  = match sessionModel w !! id with
    | Some s => if expired now s then None else Some s
    | None => None
    end.
Proof.
  unfold checkSessions, log, reads, modify, mbind, M_bind. cbn.
  destruct (sessionModel w !! id) as [s|] eqn:Hs.
  - destruct (expired now s) eqn:He.
    + apply map_lookup_filter_None. right. intros s' Hs' Hnot. cbn in Hnot.
      apply Hnot. apply list_elem_of_fmap. exists (id, s). split; [done|].
      apply list_elem_of_filter. split; [done|]. by apply elem_of_map_to_list.
    + apply map_lookup_filter_Some. split; [done|]. cbn.
      intros ([id' s'] & Hid & Hin)%list_elem_of_fmap. cbn in Hid. subst id'.
      apply list_elem_of_filter in Hin as [Hexp Hin]. cbn in Hexp.
      apply elem_of_map_to_list in Hin. congruence.
  - apply map_lookup_filter_None. by left.
Qed.

Lemma constructor_inv w this w' :
  constructor w = (Ok this, w') →
  ∃ keysPath pub priv,
    configService w !! "KEYS_PATH" = Some keysPath
    ∧ this_privateKey this = PrivateKeyObject priv
    ∧ generateAsymmetricKeys (os_entropy w)
      = (Ok {| privateKey := PrivateKeyObject priv;
               publicKey := PublicKeyObject pub |},
         advance 256 (os_entropy w))
    ∧ fs_writes w'
      = (fs_writes w ++ [(keysPath +:+ "/server_public.pem", export_spki_pem pub);
                         (keysPath +:+ "/server_private.pem", export_pkcs8_pem priv)])%list
    ∧ logger w'
      = (logger w ++ ["Generating server keypair..."; "Exporting keys...";
                      "Keys exported to: " +:+ keysPath])%list.
Proof.
  unfold constructor. unfold mbind at 1. unfold M_bind, log, modify.
  unfold mbind at 1. unfold M_bind, getOrThrow. cbn [configService set_logger].
  destruct (configService w !! "KEYS_PATH") as [keysPath|] eqn:Hpath; [|done].
  cbn [of_option]. unfold mbind at 1. unfold M_bind, rand_call.
  cbn [os_entropy set_logger].
  unfold generateAsymmetricKeys at 1. unfold mbind at 1.
  unfold rand_bind, randomBytes, liftR.
  unfold mbind at 1. unfold result_bind, rbind.
  destruct (of_option (import_spki_pem _) _) as [pub|x] eqn:Hpub; [|done].
  unfold mbind at 1. unfold result_bind, rbind.
  destruct (of_option (import_pkcs8_pem _) _) as [priv|x] eqn:Hpriv; [|done].
  intros [= <- <-]. exists keysPath, pub, priv. split; [done|]. split; [done|].
  split.
  { unfold generateAsymmetricKeys, mbind, rand_bind, randomBytes, liftR,
      result_bind, rbind. by rewrite Hpub, Hpriv. }
  cbn. by rewrite <- !app_assoc.
Qed.

(** A fault of the last step comes after the session is stored: when the
    claimed public key is not a key, [login] throws and the session
    stays. *)
Lemma login_sealing_fault_keeps_session this now dto w loginData client e :
  stages_passed this now dto w loginData client →
  createPublicKey (base64_decode (dto_publicKey dto)) = Throw e →
  login this now dto w = (Throw e, session_issued now dto w client).
Proof.
  intros [[[Hfresh Hdec] [Hmic Hval]] (id & supplied & Hid & Hfind & Hpw & Hdigest)]
    Hkey.
  rewrite login_unfold, Hfresh. cbn zeta.
  rewrite Hdec, Hmic, Hval, Hid, Hfind, Hpw, Hdigest.
  rewrite decide_False by (cbn; lia). rewrite String.eqb_refl. cbn [negb].
  unfold seal_response. unfold mbind at 1. unfold M_bind, pure_call.
  by rewrite Hkey.
Qed.

(** A response comes from a sealing that starts at the random source of
    the world the session was stored in. *)
Lemma seal_response_ok dto id key w0 response w' :
  seal_response dto id key w0 = (Ok response, w') →
  ∃ clientKey pd,
    createPublicKey (base64_decode (dto_publicKey dto)) = Ok clientKey
    ∧ protectAsymmetricServer (responseData id key) clientKey (os_entropy w0)
      = (Ok pd, os_entropy w')
    ∧ w' = set_entropy (os_entropy w') w0
    ∧ response = {| res_mic := mic pd; res_data := data pd |}.
Proof.
  unfold seal_response. unfold mbind at 1. unfold M_bind, pure_call.
  destruct (createPublicKey _) as [clientKey|x]; [|done].
  unfold mbind at 1. unfold M_bind, rand_call.
  fold (responseData id key).
  destruct (protectAsymmetricServer _ _ _) as [[pd|x] g] eqn:Hseal; [|done].
  intros [= <- <-]. exists clientKey, pd. by destruct w0.
Qed.

(** A call that returns a response has stored the session of a client,
    drawn its key, and sealed from the random source after the key. *)
Lemma login_ok_sealed this now dto w response w' :
  login this now dto w = (Ok response, w') →
  ∃ client clientKey pd,
    sessionModel w'
    = <[fresh (dom (sessionModel w)) := issued_session now dto w client]>
        (sessionModel w)
    ∧ protectAsymmetricServer
        (responseData (fresh (dom (sessionModel w)))
                      (next_bytes 32 (os_entropy w)))
        clientKey (advance 32 (os_entropy w))
      = (Ok pd, os_entropy w').
Proof.
  rewrite login_unfold.
  destruct (fresh_nonce _ _ _); [|done]. cbn zeta.
  destruct (decryptAsymmetricData _ _) as [loginData|]; [|done].
  destruct (micMatch _ _) as [[]|]; [|done..].
  case_decide; [done|].
  destruct (get_prop loginData "clientId") as [id|]; [|done].
  destruct (find_client _ _) as [client|]; [|done].
  destruct (get_prop loginData "password") as [supplied|]; [|done].
  destruct (secureHash supplied) as [digest|]; [|done].
  destruct (negb _); [done|].
  intros (clientKey & pd & _ & Hseal & -> & _)%seal_response_ok.
  exists client, clientKey, pd. split; [done|]. exact Hseal.
Qed.

End ServerFacts.

(** C6. A call of [login] either passes every stage up to the issue of the
    session (fresh nonce, decryption, integrity, validation, credentials),
    and then stores exactly one new session; or it stores none and returns
    no response: it throws, and the collection of sessions is what it
    was. *)
Theorem login_atomic `{Imports} (this : ClientService) (now : Z)
    (dto : EncodedLoginDto) (w w' : World) (r : result LoginResponse) :
  login this now dto w = (r, w') →
  (∃ loginData client,
      stages_passed this now dto w loginData client
      ∧ sessionModel w'
        = <[fresh (dom (sessionModel w)) := issued_session now dto w client]>
            (sessionModel w))
  ∨ (sessionModel w' = sessionModel w ∧ ∃ e, r = Throw e).
Proof.
  rewrite login_unfold.
  destruct (fresh_nonce _ _ _) eqn:Hfresh; [|intros [= <- <-]; right; eauto].
  cbn zeta.
  destruct (decryptAsymmetricData _ _) as [loginData|x] eqn:Hdec;
    [|intros [= <- <-]; right; eauto].
  destruct (micMatch _ _) as [[]|x] eqn:Hmic;
    [|intros [= <- <-]; right; eauto..].
  case_decide as Hval; [intros [= <- <-]; right; eauto|].
  destruct (get_prop loginData "clientId") as [id|x] eqn:Hid;
    [|intros [= <- <-]; right; eauto].
  destruct (find_client _ _) as [client|] eqn:Hfind;
    [|intros [= <- <-]; right; eauto].
  destruct (get_prop loginData "password") as [supplied|x] eqn:Hpw;
    [|intros [= <- <-]; right; eauto].
  destruct (secureHash supplied) as [digest|x] eqn:Hdigest;
    [|intros [= <- <-]; right; eauto].
  destruct (String.eqb_spec (password client) digest) as [Heq|Hne];
    [|intros [= <- <-]; right; eauto].
  cbn [negb]. intros Hseal. left. exists loginData, client. split.
  - repeat split; try done.
    + destruct (validateSync loginData); [done|]. cbn in Hval. lia.
    + exists id, supplied. by rewrite Heq.
  - apply seal_response_world in Hseal as [g ->]. done.
Qed.

(** C5. The replay check comes first and its record stays.  Whatever a
    call of [login] with a fresh nonce returns, a response or any error,
    the nonce is in the cache afterwards; and until the cache evicts it,
    every request that carries it is refused with [ReplayError] and changes
    nothing, whatever its data, also data that does not decrypt. *)
Theorem replay_refused_after_any_outcome `{Imports} (this : ClientService)
    (now1 now2 : Z) (dto : EncodedLoginDto) (w w1 : World)
    (r : result LoginResponse) :
  fresh_nonce now1 (dto_nonce dto) (nonceCache w) = true →
  login this now1 dto w = (r, w1) →
  now2 < now1 + nonceTTL →
  nonceCache w1 = <[dto_nonce dto := now1 + nonceTTL]> (nonceCache w)
  ∧ ∀ this' dto',
      dto_nonce dto' = dto_nonce dto →
      login this' now2 dto' w1 = (Throw ReplayError, w1).
Proof.
  intros Hfresh Hlogin Hnow.
  assert (nonceCache w1 = <[dto_nonce dto := now1 + nonceTTL]> (nonceCache w))
    as Hcache.
  { revert Hlogin. rewrite login_unfold, Hfresh. cbn zeta.
    repeat (first [ case_decide | case_match ]; try (by intros [= <- <-])).
    intros Hseal. apply seal_response_world in Hseal as [g ->]. done. }
  split; [done|]. intros this' dto' Hn.
  apply login_replay. rewrite Hn, Hcache. unfold fresh_nonce.
  rewrite lookup_insert_eq. apply bool_decide_eq_false. lia.
Qed.

(** C3, as the code has it.  For a request that reaches the check of the
    credentials, an unknown client id is answered with
    [NotFoundException "Client not found"] and a wrong password with
    [UnauthorizedException "Invalid credentials"]: two different errors. *)
Theorem credential_failures_are_told_apart `{Imports} (this : ClientService)
    (now : Z) (dto : EncodedLoginDto) (w : World) (loginData : value) :
  reaches_credentials this now dto w loginData →
  (unknown_client loginData w →
     login this now dto w
     = (Throw (NotFoundException "Client not found"), nonce_recorded now dto w))
  ∧ (wrong_password loginData w →
     login this now dto w
     = (Throw (UnauthorizedException "Invalid credentials"),
        nonce_recorded now dto w)).
Proof.
  intros [[Hfresh Hdec] [Hmic Hval]].
  split.
  - intros (id & Hid & Hfind).
    rewrite login_unfold, Hfresh. cbn zeta.
    rewrite Hdec, Hmic, Hval, Hid, Hfind. by rewrite decide_False by (cbn; lia).
  - intros (id & client & supplied & digest & Hid & Hfind & Hpw & Hdigest & Hne).
    rewrite login_unfold, Hfresh. cbn zeta.
    rewrite Hdec, Hmic, Hval, Hid, Hfind, Hpw, Hdigest.
    rewrite decide_False by (cbn; lia).
    apply String.eqb_neq in Hne. by rewrite Hne.
Qed.

(** C2, as the code has it.  For a request with a fresh nonce whose data
    decrypts to [loginData], the tag is recomputed over the nonce, the
    decrypted payload and the claimed public key; when it differs from
    [mic] the call ends with the integrity fault, and when it is [mic] the
    payload goes on to validation. *)
Theorem login_tags_decrypted_payload `{Imports} (this : ClientService)
    (now : Z) (dto : EncodedLoginDto) (w : World) (loginData : value) :
  reaches_integrity this now dto w loginData →
  ∃ tag,
    createMIC (micPayload dto loginData) = Ok tag
    ∧ (tag ≠ dto_mic dto →
         login this now dto w = (Throw integrity_fault, nonce_recorded now dto w))
    ∧ (tag = dto_mic dto → validateSync loginData ≠ [] →
         login this now dto w
         = (Throw (BadRequestException
                     (map (join ", ") (validateSync loginData))),
            nonce_recorded now dto w)).
Proof.
  intros [Hfresh Hdec].
  destruct (micMatch_obj (dto_mic dto)
    [("nonce", VStr (dto_nonce dto)); ("data", loginData);
     ("publicKey", VStr (dto_publicKey dto))]) as (tag & Htag & Hmic).
  fold (micPayload dto loginData) in Htag, Hmic.
  exists tag. split; [done|]. split.
  - intros Hne. rewrite login_unfold, Hfresh. cbn zeta. rewrite Hdec, Hmic.
    apply String.eqb_neq in Hne. by rewrite Hne.
  - intros Heq Hval. rewrite login_unfold, Hfresh. cbn zeta. rewrite Hdec, Hmic.
    rewrite Heq, String.eqb_refl.
    rewrite decide_True; [done|]. destruct (validateSync loginData); [done|cbn; lia].
Qed.

(** C9. The life of a session.  A call of [login] that returns a response
    has stored one new session, under an identifier no session had; its key
    is the base64 of 32 bytes (256 bits) just drawn from the random source,
    and its expiry is the instant of the call plus ten minutes, written
    once.  The key is fresh: the 32 bytes are taken off the random source,
    the response is sealed from the source after them, and, the sealing
    only drawing bytes, the key of every session stored later is made of
    bytes of the tape that come after them.  [checkSessions] at instant [t]
    removes exactly the sessions whose expiry is before [t].  So the new
    session is still found after any pruning up to ten minutes after its
    creation, and is gone after a pruning later than that. *)
Theorem session_lifecycle `{Imports} (this : ClientService) (now : Z)
    (dto : EncodedLoginDto) (w w' : World) (response : LoginResponse) :
  login this now dto w = (Ok response, w') →
  fromISO (toISO (now + minutes 10)) = Some (now + minutes 10) →
  ∃ id client,
    let session := issued_session now dto w client in
    sessionModel w !! id = None
    ∧ sessionModel w' = <[id := session]> (sessionModel w)
    ∧ sessionKey session = base64_encode (next_bytes 32 (os_entropy w))
    ∧ List.length (next_bytes 32 (os_entropy w)) = 32%nat
    ∧ expire session = toISO (now + 600000)
    ∧ (∀ t w0 i,
         sessionModel (checkSessions t w0).2 !! i
         = match sessionModel w0 !! i with
           | Some s => if expired t s then None else Some s
           | None => None
           end)
    ∧ (∀ t, t ≤ now + minutes 10 →
         sessionModel (checkSessions t w').2 !! id = Some session)
    ∧ (∀ t, now + minutes 10 < t →
         sessionModel (checkSessions t w').2 !! id = None)
    ∧ (∃ clientKey pd,
         protectAsymmetricServer
           (responseData id (next_bytes 32 (os_entropy w)))
           clientKey (advance 32 (os_entropy w))
         = (Ok pd, os_entropy w'))
    ∧ (sealing_draws_forward →
         draws_forward (advance 32 (os_entropy w)) (os_entropy w')
         ∧ ∀ w2 this2 now2 dto2 response2 w3,
             draws_forward (os_entropy w') (os_entropy w2) →
             login this2 now2 dto2 w2 = (Ok response2, w3) →
             ∃ id2 session2 n,
               sessionModel w2 !! id2 = None
               ∧ sessionModel w3 !! id2 = Some session2
               ∧ (drawn (os_entropy w) + 32 ≤ n)%nat
               ∧ sessionKey session2
                 = base64_encode (map (tape (os_entropy w)) (seq n 32))).
Proof.
  intros Hlogin Hiso.
  destruct (login_ok_sealed this now dto w response w' Hlogin)
    as (client & clientKey & pd & Hsessions & Hseal).
  exists (fresh (dom (sessionModel w))), client. cbn zeta.
  assert (sessionModel w !! fresh (dom (sessionModel w)) = None) as Hnew.
  { apply not_elem_of_dom. apply is_fresh. }
  split; [done|]. split; [done|]. split; [done|].
  split; [apply next_bytes_length|]. split; [done|].
  split; [intros; apply checkSessions_lookup|].
  split; [|split; [|split; [by eauto|]]].
  - intros t Ht. rewrite checkSessions_lookup, Hsessions, lookup_insert_eq.
    unfold expired. cbn [expire issued_session]. rewrite Hiso.
    by rewrite bool_decide_eq_false_2 by lia.
  - intros t Ht. rewrite checkSessions_lookup, Hsessions, lookup_insert_eq.
    unfold expired. cbn [expire issued_session]. rewrite Hiso.
    by rewrite bool_decide_eq_true_2 by lia.
  - intros Hforward.
    assert (draws_forward (advance 32 (os_entropy w)) (os_entropy w')) as Hdrawn.
    { specialize (Hforward
        (responseData (fresh (dom (sessionModel w))) (next_bytes 32 (os_entropy w)))
        clientKey (advance 32 (os_entropy w))).
      by rewrite Hseal in Hforward. }
    split; [exact Hdrawn|].
    intros w2 this2 now2 dto2 response2 w3 [Htape2 Hdrawn2] Hlogin2.
    destruct (login_ok_sealed this2 now2 dto2 w2 response2 w3 Hlogin2)
      as (client2 & _ & _ & Hsessions2 & _).
    destruct Hdrawn as [Htape Hdrawn]. cbn [advance tape drawn] in Htape, Hdrawn.
    exists (fresh (dom (sessionModel w2))),
      (issued_session now2 dto2 w2 client2), (drawn (os_entropy w2)).
    split; [apply not_elem_of_dom, is_fresh|].
    split; [rewrite Hsessions2; apply lookup_insert_eq|].
    split; [lia|].
    cbn [sessionKey issued_session]. unfold next_bytes.
    by rewrite Htape2, Htape.
Qed.

(** C1, as the code has it.  A constructor that completes has read
    [KEYS_PATH], keeps the private key in the instance, and has written two
    files there: the public key to [server_public.pem] and the private key,
    as PKCS#8 PEM, to [server_private.pem].  Its three log lines hold no key
    material. *)
Theorem constructor_writes_both_keys `{Platform} (w w' : World)
    (this : ClientService) :
  constructor w = (Ok this, w') →
  ∃ keysPath pub priv,
    configService w !! "KEYS_PATH" = Some keysPath
    ∧ this_privateKey this = PrivateKeyObject priv
    ∧ fs_writes w'
      = (fs_writes w ++ [(keysPath +:+ "/server_public.pem", export_spki_pem pub);
                         (keysPath +:+ "/server_private.pem", export_pkcs8_pem priv)])%list
    ∧ logger w'
      = (logger w ++ ["Generating server keypair..."; "Exporting keys...";
                      "Keys exported to: " +:+ keysPath])%list.
Proof.
  intros Hc. apply constructor_inv in Hc
    as (keysPath & pub & priv & Hpath & Hthis & _ & Hfs & Hlog).
  by exists keysPath, pub, priv.
Qed.

(** ** Runs on the executable platform *)

Import Reference.

Lemma check_accepts_protect_run :
  is_Some (JSON.stringify payload0)
  ∧ List.length key0 = 32%nat
  ∧ ∃ e g', protect payload0 (SecretKeyObject key0) entropy0 = (Ok e, g')
            ∧ check e = Ok true.
Proof.
  split; [by eexists|]. split; [reflexivity|].
  apply (check_accepts_protect payload0 key0 entropy0); [by eexists|reflexivity].
Defined.

Lemma unprotect_protect_run :
  serializes_to payload0 payload0_json
  ∧ ∃ e g', protect payload0 (SecretKeyObject key0) entropy0 = (Ok e, g')
            ∧ unprotect e (SecretKeyObject key0) = Ok payload0.
Proof.
  assert (serializes_to payload0 payload0_json) as Hser
    by (split; vm_compute; reflexivity).
  split; [exact Hser|].
  apply (unprotect_protect payload0 payload0_json key0 entropy0 Hser);
    vm_compute; reflexivity.
Defined.

Lemma unprotectAsymmetric_rejects_run :
  protectAsymmetric payload0 server_public0 (advance 512 entropy0)
    = (Ok sealed0, advance 532 entropy0)
  ∧ decryptAsymmetricData sealed0 server_private0 = Ok payload0
  ∧ unprotectAsymmetric sealed0 server_private0
    = Throw (Error "Failed to decipher: compromised data!").
Proof.
  assert (protectAsymmetric payload0 server_public0 (advance 512 entropy0)
          = (Ok sealed0, advance 532 entropy0)) as Hseal
    by (vm_compute; reflexivity).
  split; [exact Hseal|]. split; [vm_compute; reflexivity|].
  apply (unprotectAsymmetric_rejects_protectAsymmetric payload0 server_public0
           server_private0 _ _ sealed0 Hseal).
  assert (sha256_base64 (sealed_tag_input (data sealed0)) = sealed0_tag)
    as -> by (vm_compute; reflexivity).
  assert (sha256_base64 (checked_tag_input (data sealed0)) = checked0_tag)
    as -> by (vm_compute; reflexivity).
  unfold sealed0_tag, checked0_tag. discriminate.
Defined.

(** The envelope [leaky0] has a matching tag and deciphers under [key0] to
    a text that is not JSON: [unprotect] throws the [SyntaxError] of
    [JSON.parse], and its message holds the deciphered text. *)
Lemma failure_quotes_plaintext :
  ¬ failure_quotes_no_plaintext Examples.leaky0 (SecretKeyObject key0).
Proof.
  intros Hnone.
  assert (unprotect Examples.leaky0 (SecretKeyObject key0)
          = Throw (SyntaxError (JSON_parse_error Examples.card_text))) as Hthrows
    by (vm_compute; reflexivity).
  assert (deciphered Examples.leaky0 (SecretKeyObject key0)
          = Some Examples.card_text) as Htext by (vm_compute; reflexivity).
  assert (contains Examples.card_text
            (exn_message (SyntaxError (JSON_parse_error Examples.card_text)))
          = true) as Hquoted by (vm_compute; reflexivity).
  rewrite (Hnone _ _ Hthrows Htext) in Hquoted; [discriminate Hquoted|].
  discriminate.
Defined.

(** The constructor on [world_boot] completes and leaves the private key
    in [keys/server_private.pem]: the sentence of the specification does
    not hold of it. *)
Lemma private_key_is_persisted : ¬ private_key_never_persisted world_boot.
Proof.
  intros Hnever.
  assert (constructor world_boot = (Ok service0, (constructor world_boot).2))
    as Hrun by (vm_compute; reflexivity).
  assert (("keys/server_private.pem", private_pem0)
            ∈ fs_writes (constructor world_boot).2) as Hwritten.
  { apply list_elem_of_In. vm_compute. right. left. reflexivity. }
  apply (Hnever service0 _ Hrun _ _ Hwritten).
  vm_compute. reflexivity.
Defined.

Lemma constructor_writes_both_keys_run :
  ∃ keysPath pub priv,
    configService world_boot !! "KEYS_PATH" = Some keysPath
    ∧ this_privateKey service0 = PrivateKeyObject priv
    ∧ fs_writes (constructor world_boot).2
      = (fs_writes world_boot
           ++ [(keysPath +:+ "/server_public.pem", export_spki_pem pub);
               (keysPath +:+ "/server_private.pem", export_pkcs8_pem priv)])%list
    ∧ logger (constructor world_boot).2
      = (logger world_boot
           ++ ["Generating server keypair..."; "Exporting keys...";
               "Keys exported to: " +:+ keysPath])%list.
Proof.
  apply (constructor_writes_both_keys world_boot (constructor world_boot).2 service0).
  vm_compute. reflexivity.
Defined.

(** The request of Alice reaches the integrity step, its [mic] is not the
    tag of the transmitted fields, and [login] answers it: the step does
    not compare [mic] with a tag of the transmitted fields. *)
Lemma integrity_is_not_over_transmitted :
  ¬ integrity_over_transmitted service0 now0 request_alice world0.
Proof.
  intros Hspec.
  destruct (Hspec payload0) as [Hfault _].
  - split; vm_compute; reflexivity.
  - assert ((login service0 now0 request_alice world0).1 = Throw integrity_fault)
      as Hlogin by (apply Hfault; vm_compute; reflexivity).
    assert ((login service0 now0 request_alice world0).1 = Ok response_alice)
      as Hanswer by (vm_compute; reflexivity).
    congruence.
Defined.

Lemma login_tags_decrypted_payload_run :
  reaches_integrity service0 now0 request_tagged_as_sent world0 payload0
  ∧ ∃ tag,
      createMIC (micPayload request_tagged_as_sent payload0) = Ok tag
      ∧ (tag ≠ dto_mic request_tagged_as_sent →
           login service0 now0 request_tagged_as_sent world0
           = (Throw integrity_fault,
              nonce_recorded now0 request_tagged_as_sent world0))
      ∧ (tag = dto_mic request_tagged_as_sent → validateSync payload0 ≠ [] →
           login service0 now0 request_tagged_as_sent world0
           = (Throw (BadRequestException
                       (map (join ", ") (validateSync payload0))),
              nonce_recorded now0 request_tagged_as_sent world0)).
Proof.
  assert (reaches_integrity service0 now0 request_tagged_as_sent world0 payload0)
    as Hreach by (split; vm_compute; reflexivity).
  split; [exact Hreach|].
  exact (login_tags_decrypted_payload service0 now0 request_tagged_as_sent
           world0 payload0 Hreach).
Defined.

(** An unknown client id and a wrong password are answered with different
    errors: there is no single error for the two. *)
Lemma authentication_errors_differ :
  ¬ single_authentication_error service0 now0 world0.
Proof.
  intros [err Hsingle].
  assert ((login service0 now0 request_unknown_client world0).1 = Throw err)
    as Hunknown.
  { apply (Hsingle request_unknown_client payload_mallory).
    - repeat split; vm_compute; reflexivity.
    - left. exists (VStr "mallory"). split; vm_compute; reflexivity. }
  assert ((login service0 now0 request_wrong_password world0).1 = Throw err)
    as Hwrong.
  { apply (Hsingle request_wrong_password payload_guess).
    - repeat split; vm_compute; reflexivity.
    - right. exists (VStr "alice"), alice, (VStr "letmein"),
        "MnwGZQoyJf3ivWT3jGMAOeADckwljURpwZXdw7tAfpA=".
      repeat split; [vm_compute; reflexivity..|].
      intros Heq. vm_compute in Heq. discriminate Heq. }
  assert ((login service0 now0 request_unknown_client world0).1
          = Throw (NotFoundException "Client not found")) as Hnotfound
    by (vm_compute; reflexivity).
  assert ((login service0 now0 request_wrong_password world0).1
          = Throw (UnauthorizedException "Invalid credentials")) as Hunauthorized
    by (vm_compute; reflexivity).
  congruence.
Defined.

Lemma credential_failures_are_told_apart_run :
  reaches_credentials service0 now0 request_unknown_client world0 payload_mallory
  ∧ (unknown_client payload_mallory world0 →
       login service0 now0 request_unknown_client world0
       = (Throw (NotFoundException "Client not found"),
          nonce_recorded now0 request_unknown_client world0))
  ∧ (wrong_password payload_mallory world0 →
       login service0 now0 request_unknown_client world0
       = (Throw (UnauthorizedException "Invalid credentials"),
          nonce_recorded now0 request_unknown_client world0)).
Proof.
  assert (reaches_credentials service0 now0 request_unknown_client world0
            payload_mallory) as Hreach
    by (repeat split; vm_compute; reflexivity).
  split; [exact Hreach|].
  exact (credential_failures_are_told_apart service0 now0 request_unknown_client
           world0 payload_mallory Hreach).
Defined.

Lemma replay_refused_after_any_outcome_run :
  (login service0 now0 request_wrong_password world0).1
    = Throw (UnauthorizedException "Invalid credentials")
  ∧ login service0 (now0 + 1000) request_wrong_password
      (login service0 now0 request_wrong_password world0).2
    = (Throw ReplayError, (login service0 now0 request_wrong_password world0).2).
Proof.
  split; [vm_compute; reflexivity|].
  assert (fresh_nonce now0 (dto_nonce request_wrong_password) (nonceCache world0)
          = true) as Hfresh by (vm_compute; reflexivity).
  assert (now0 + 1000 < now0 + nonceTTL) as Hnow by (vm_compute; reflexivity).
  destruct (replay_refused_after_any_outcome service0 now0 (now0 + 1000)
              request_wrong_password world0 _ _ Hfresh
              (surjective_pairing _) Hnow) as [_ Hreplay].
  exact (Hreplay service0 request_wrong_password eq_refl).
Defined.

Lemma login_atomic_run :
  (∃ loginData client,
      stages_passed service0 now0 request_wrong_password world0 loginData client
      ∧ sessionModel (login service0 now0 request_wrong_password world0).2
        = <[fresh (dom (sessionModel world0))
              := issued_session now0 request_wrong_password world0 client]>
            (sessionModel world0))
  ∨ (sessionModel (login service0 now0 request_wrong_password world0).2
       = sessionModel world0
     ∧ ∃ e, (login service0 now0 request_wrong_password world0).1 = Throw e).
Proof.
  exact (login_atomic service0 now0 request_wrong_password world0 _ _
           (surjective_pairing _)).
Defined.

Lemma session_lifecycle_run :
  sealing_draws_forward
  ∧ ∃ id client,
    let session := issued_session now0 request_alice world0 client in
    let w' := (login service0 now0 request_alice world0).2 in
    sessionModel world0 !! id = None
    ∧ sessionModel w' = <[id := session]> (sessionModel world0)
    ∧ sessionKey session = base64_encode (next_bytes 32 (os_entropy world0))
    ∧ List.length (next_bytes 32 (os_entropy world0)) = 32%nat
    ∧ expire session = toISO (now0 + 600000)
    ∧ (∀ t w0 i,
         sessionModel (checkSessions t w0).2 !! i
         = match sessionModel w0 !! i with
           | Some s => if expired t s then None else Some s
           | None => None
           end)
    ∧ (∀ t, t ≤ now0 + minutes 10 →
         sessionModel (checkSessions t w').2 !! id = Some session)
    ∧ (∀ t, now0 + minutes 10 < t →
         sessionModel (checkSessions t w').2 !! id = None)
    ∧ (∃ clientKey pd,
         protectAsymmetricServer
           (responseData id (next_bytes 32 (os_entropy world0)))
           clientKey (advance 32 (os_entropy world0))
         = (Ok pd, os_entropy w'))
    ∧ (sealing_draws_forward →
         draws_forward (advance 32 (os_entropy world0)) (os_entropy w')
         ∧ ∀ w2 this2 now2 dto2 response2 w3,
             draws_forward (os_entropy w') (os_entropy w2) →
             login this2 now2 dto2 w2 = (Ok response2, w3) →
             ∃ id2 session2 n,
               sessionModel w2 !! id2 = None
               ∧ sessionModel w3 !! id2 = Some session2
               ∧ (drawn (os_entropy world0) + 32 ≤ n)%nat
               ∧ sessionKey session2
                 = base64_encode (map (tape (os_entropy world0)) (seq n 32))).
Proof.
  split.
  { intros v k g. unfold protectAsymmetricServer, imports.
    rewrite protectAsymmetric_draws. split; [reflexivity|]. simpl. lia. }
  assert (login service0 now0 request_alice world0
          = (Ok response_alice, (login service0 now0 request_alice world0).2))
    as Hlogin by (vm_compute; reflexivity).
  assert (fromISO (toISO (now0 + minutes 10)) = Some (now0 + minutes 10))
    as Hiso by (vm_compute; reflexivity).
  exact (session_lifecycle service0 now0 request_alice world0 _ response_alice
           Hlogin Hiso).
Defined.

(** * Further properties *)

(** ** String literals of [JSON.stringify] can be read back *)

Lemma string_app_assoc (a b c : string) : (a +:+ b) +:+ c = a +:+ (b +:+ c).
Proof.
  induction a as [|x a IH]; [done|].
  change (String x ((a +:+ b) +:+ c) = String x (a +:+ b +:+ c)). by rewrite IH.
Qed.

Lemma string_app_nil (s : string) : s +:+ "" = s.
Proof.
  induction s as [|x s IH]; [done|].
  change (String x (s +:+ "") = String x s). by rewrite IH.
Qed.

(** Reading one escaped code unit. *)
Lemma literal_escape_char c rest :
  Parse.literal (JSON.escape_char c +:+ rest)
  = match Parse.literal rest with
    | Some (t, rest') => Some (String c t, rest')
    | None => None
    end.
Proof. destruct c as [[] [] [] [] [] [] [] []]; reflexivity. Qed.

(** Reading an escaped string up to its closing quote. *)
Lemma literal_escape s rest :
  Parse.literal (JSON.escape s +:+ String JSON.dquote rest) = Some (s, rest).
Proof.
  induction s as [|c s IH]; [done|].
  change (JSON.escape (String c s))
    with (JSON.escape_char c +:+ JSON.escape s).
  rewrite string_app_assoc, literal_escape_char. by rewrite IH.
Qed.

(** An escaped string, its closing quote and what follows determine the
    string and what follows. *)
Lemma escape_app_inj s1 s2 r1 r2 :
  JSON.escape s1 +:+ String JSON.dquote r1
  = JSON.escape s2 +:+ String JSON.dquote r2 →
  s1 = s2 ∧ r1 = r2.
Proof.
  intros Heq. pose proof (literal_escape s1 r1) as Hread.
  rewrite Heq, literal_escape in Hread. by injection Hread as -> ->.
Qed.

Lemma quote_app_inj s1 s2 r1 r2 :
  JSON.quote s1 +:+ r1 = JSON.quote s2 +:+ r2 → s1 = s2 ∧ r1 = r2.
Proof.
  unfold JSON.quote.
  change (String JSON.dquote ((JSON.escape s1 +:+ String JSON.dquote "") +:+ r1)
          = String JSON.dquote ((JSON.escape s2 +:+ String JSON.dquote "") +:+ r2)
          → s1 = s2 ∧ r1 = r2).
  intros [= Heq]. rewrite !string_app_assoc in Heq. by apply escape_app_inj.
Qed.

Lemma quote_inj s1 s2 : JSON.quote s1 = JSON.quote s2 → s1 = s2.
Proof.
  intros Heq. apply (quote_app_inj s1 s2 "" "").
  by rewrite !string_app_nil.
Qed.

(** ** Tampering with a sealed envelope *)

Section TamperFacts.
Context `{Platform}.

Lemma stringify_cipher_obj d n :
  JSON.stringify (cipher_obj d n)
  = Some ("{" +:+ JSON.quote "data" +:+ ":" +:+ JSON.quote d +:+ after_data n).
Proof.
  destruct n as [x|]; cbn; [|reflexivity].
  do 2 f_equal. rewrite !string_app_assoc. reflexivity.
Qed.

Lemma check_tag_input_inj e e' :
  check_tag_input e' = check_tag_input e →
  data e' = data e ∧ nonce e' = nonce e.
Proof.
  unfold check_tag_input. rewrite !stringify_cipher_obj. cbn [default].
  intros Heq%quote_inj. cbn in Heq. injection Heq as Heq.
  rewrite !string_app_assoc in Heq.
  apply escape_app_inj in Heq as [Hdata Hafter]. split; [done|].
  destruct (nonce e') as [x'|], (nonce e) as [x|]; cbn in Hafter; try done.
  injection Hafter as Hafter. rewrite !string_app_assoc in Hafter.
  apply escape_app_inj in Hafter as [-> _]. done.
Qed.

Lemma check_eq e :
  check e = Ok (String.eqb (sha256_base64 (check_tag_input e)) (mic e)).
Proof.
  unfold check, micMatch, createMIC, JSON_stringify, secureHash, string_arg,
    check_tag_input.
  rewrite stringify_cipher_obj. reflexivity.
Qed.

End TamperFacts.

(** X1. Tampering is detected.  Take an envelope that passes [check] and
    change its data or its nonce, keeping [mic].  The string that [check]
    hashes is then another one; and unless SHA-256 gives both the same
    digest, [check] answers [false] and [unprotect] throws the integrity
    error under every key. *)
Theorem tampering_is_detected `{Platform} (e e' : ProtectedData) :
  check e = Ok true →
  mic e' = mic e →
  (data e', nonce e') ≠ (data e, nonce e) →
  check_tag_input e' ≠ check_tag_input e
  ∧ (sha256_base64 (check_tag_input e') ≠ sha256_base64 (check_tag_input e) →
       check e' = Ok false
       ∧ ∀ key, unprotect e' key
                = Throw (Error "Failed to decipher: compromised data!")).
Proof.
  intros Hcheck Hmic Hdiff. split.
  - intros [Hd Hn]%check_tag_input_inj. apply Hdiff. by rewrite Hd, Hn.
  - intros Hsha. rewrite check_eq in Hcheck. injection Hcheck as Hcheck.
    apply String.eqb_eq in Hcheck.
    assert (check e' = Ok false) as Hrejected.
    { rewrite check_eq, Hmic, <- Hcheck. f_equal. by apply String.eqb_neq. }
    split; [done|]. intros key.
    unfold unprotect, mbind, result_bind, rbind. by rewrite Hrejected.
Qed.

Import Examples.

Lemma tampering_is_detected_run :
  check protected0 = Ok true
  ∧ check tampered0 = Ok false
  ∧ ∀ key, unprotect tampered0 key
           = Throw (Error "Failed to decipher: compromised data!").
Proof.
  assert (check protected0 = Ok true) as Hcheck by (vm_compute; reflexivity).
  split; [exact Hcheck|].
  assert ((data tampered0, nonce tampered0) ≠ (data protected0, nonce protected0))
    as Hdiff by (vm_compute; discriminate).
  destruct (tampering_is_detected protected0 tampered0 Hcheck eq_refl Hdiff)
    as [_ Hdetected].
  apply Hdetected.
  assert (sha256_base64 (check_tag_input tampered0)
          ≠ sha256_base64 (check_tag_input protected0)) as Hsha.
  { intros Heq. vm_compute in Heq. discriminate Heq. }
  exact Hsha.
Defined.

(** ** When the library returns and when it throws *)

Section LibraryReturns.
Context `{Platform}.

Lemma aes_256_cbc_key_ok secret iv key :
  aes_256_cbc_key secret iv = Ok key ↔
  secret = SecretKeyObject key
  ∧ List.length key = 32%nat ∧ List.length iv = 16%nat.
Proof.
  unfold aes_256_cbc_key. destruct secret as [k| |].
  - case_decide as Hlen.
    + split; [intros [= ->]; by destruct Hlen|]. by intros ([= ->] & _).
    + split; [done|]. intros ([= ->] & ? & ?). by destruct Hlen.
  - split; [done|]. by intros [? _].
  - split; [done|]. by intros [? _].
Qed.

Lemma decipherData_ok e k v :
  decipherData e k = Ok v ↔
  ∃ n key plain,
    nonce e = Some n ∧ k = SecretKeyObject key
    ∧ List.length key = 32%nat
    ∧ List.length (base64_decode n) = 16%nat
    ∧ aes_256_cbc_decrypt key (base64_decode n) (base64_decode (data e))
      = Some plain
    ∧ JSON_parse (string_of_list_byte plain) = Some v.
Proof.
  unfold decipherData, JSON_parse_or_throw, mbind, result_bind, rbind, of_option.
  destruct (nonce e) as [n|]; cbn [fmap option_fmap option_map];
    [|split; [done|]; by intros (? & ? & ? & ? & _)].
  destruct (aes_256_cbc_key k (base64_decode n)) as [key|x] eqn:Hkey.
  - apply aes_256_cbc_key_ok in Hkey as (-> & Hlen & Hiv).
    destruct (aes_256_cbc_decrypt _ _ _) as [plain|] eqn:Hdec.
    + destruct (JSON_parse _) as [v'|] eqn:Hparse.
      * split; [intros [= <-]; eauto 10|].
        intros (? & ? & ? & [= <-] & [= <-] & _ & _ & Hd & Hp). congruence.
      * split; [done|].
        intros (? & ? & ? & [= <-] & [= <-] & _ & _ & Hd & Hp). congruence.
    + split; [done|].
      intros (? & ? & ? & [= <-] & [= <-] & _ & _ & Hd & Hp). congruence.
  - split; [done|]. intros (n' & key & plain & [= <-] & -> & Hlen & Hiv & _).
    assert (aes_256_cbc_key (SecretKeyObject key) (base64_decode n) = Ok key)
      as Hok by (by apply aes_256_cbc_key_ok).
    congruence.
Qed.

End LibraryReturns.

(** X2. [unprotect] returns a value exactly when the envelope passes
    [check], has a nonce that decodes to 16 bytes, the key is a secret key
    of 32 bytes, the data deciphers under them and the plaintext parses as
    JSON to that value; in every other case it throws. *)
Theorem unprotect_returns_only_when `{Platform} (e : ProtectedData)
    (k : KeyObject) (v : value) :
  unprotect e k = Ok v ↔
  check e = Ok true
  ∧ ∃ n key plain,
      nonce e = Some n ∧ k = SecretKeyObject key
      ∧ List.length key = 32%nat
      ∧ List.length (base64_decode n) = 16%nat
      ∧ aes_256_cbc_decrypt key (base64_decode n) (base64_decode (data e))
        = Some plain
      ∧ JSON_parse (string_of_list_byte plain) = Some v.
Proof.
  rewrite <- decipherData_ok.
  unfold unprotect, mbind, result_bind, rbind.
  destruct (check e) as [[]|x]; cbn [negb].
  - split; [done|]. by intros [_ ?].
  - split; [done|]. by intros [? _].
  - split; [done|]. by intros [? _].
Qed.

(** X3. [protect] returns an envelope exactly when the key is a secret key
    of 32 bytes and [JSON.stringify] serializes the payload; otherwise it
    throws.  Either way it has drawn the 16 bytes of the nonce. *)
Theorem protect_returns_only_when `{Platform} (d : value) (k : KeyObject)
    (g : Entropy) :
  ((∃ e, (protect d k g).1 = Ok e)
   ↔ (∃ key, k = SecretKeyObject key ∧ List.length key = 32%nat)
     ∧ is_Some (JSON.stringify d))
  ∧ (protect d k g).2 = advance 16 g.
Proof.
  unfold protect, cipherData, randomBytes, liftR, string_arg, of_option.
  unfold mbind, rand_bind, result_bind, rbind. cbn [fst snd].
  destruct (aes_256_cbc_key k (next_bytes 16 g)) as [key|x] eqn:Hkey.
  - apply aes_256_cbc_key_ok in Hkey as (-> & Hlen & _).
    destruct (JSON.stringify d) as [s|] eqn:Hs; cbn [fst snd].
    + destruct (createMIC_obj
        [("data", VStr (base64_encode
            (aes_256_cbc_encrypt key (next_bytes 16 g) (list_byte_of_string s))));
         ("nonce", VStr (base64_encode (next_bytes 16 g)))]) as (js & _ & Hm).
      unfold cipher_obj, opt_str. cbn [cr_data cr_nonce]. rewrite Hm.
      cbn [fst snd]. split; [|done]. split; [eauto|]. intros _. eauto.
    + split; [|done]. split; [by intros [e ?]|]. by intros [_ [? ?]].
  - cbn [fst snd]. split; [|done]. split; [by intros [e ?]|].
    intros [(key & -> & Hlen) _].
    assert (aes_256_cbc_key (SecretKeyObject key) (next_bytes 16 g) = Ok key)
      as Hok by (apply aes_256_cbc_key_ok; by rewrite next_bytes_length).
    congruence.
Qed.

(** X4. What [protectAsymmetric] seals, [decryptAsymmetricData] opens: for
    a payload that serializes to [s], when RSA gives back under the private
    key what it encrypted under the public key and base64 gives back the
    ciphertext, [protectAsymmetric] returns an envelope without nonce whose
    data [decryptAsymmetricData] decrypts to the payload. *)
Theorem decryptAsymmetricData_opens_protectAsymmetric `{Platform}
    (d : value) (s : string) (pub : RsaPublicKey) (priv : RsaPrivateKey)
    (g : Entropy) (ct : list byte) :
  serializes_to d s →
  rsa_oaep_encrypt pub (next_bytes oaep_seed_length g) (list_byte_of_string s)
    = Some ct →
  rsa_oaep_decrypt priv ct = Some (list_byte_of_string s) →
  base64_round_trips ct →
  base64_encode ct ≠ "" →
  ∃ e,
    protectAsymmetric d (PublicKeyObject pub) g
      = (Ok e, advance oaep_seed_length g)
    ∧ data e = base64_encode ct ∧ nonce e = None
    ∧ decryptAsymmetricData e (PrivateKeyObject priv) = Ok d.
Proof.
  intros [Hs Hparse] Henc Hdec Hb64 Hne. unfold base64_round_trips in Hb64.
  eexists. split; [|split; [|split]].
  - unfold protectAsymmetric, encryptAsymmetricData, randomBytes, liftR,
      string_arg, public_key_of, of_option.
    unfold mbind, rand_bind, result_bind, rbind. rewrite Hs, Henc.
    rewrite decide_False by done.
    unfold secureHash, JSON_stringify, string_arg, of_option. cbn -[JSON.quote].
    reflexivity.
  - done.
  - done.
  - unfold decryptAsymmetricData, private_key_of, JSON_parse_or_throw, of_option.
    unfold mbind, result_bind, rbind. cbn [data].
    by rewrite Hb64, Hdec, string_of_list_byte_of_string, Hparse.
Qed.

(** X5. A key from [generateSymmetricKey] is one [protect] and [unprotect]
    take: it is the next 32 random bytes, [protect] seals a serializable
    payload under it with the 16 bytes that follow as nonce, and
    [unprotect] gives the payload back, when base64 and the cipher give
    back what they were given. *)
Theorem generated_key_round_trips `{Platform} (d : value) (s : string)
    (g : Entropy) :
  serializes_to d s →
  base64_round_trips (next_bytes 16 (advance 32 g)) →
  base64_round_trips
    (aes_256_cbc_encrypt (next_bytes 32 g) (next_bytes 16 (advance 32 g))
       (list_byte_of_string s)) →
  aes_round_trips (next_bytes 32 g) (next_bytes 16 (advance 32 g))
    (list_byte_of_string s) →
  ∃ e,
    generateSymmetricKey g = (Ok (SecretKeyObject (next_bytes 32 g)), advance 32 g)
    ∧ protect d (SecretKeyObject (next_bytes 32 g)) (advance 32 g)
      = (Ok e, advance 16 (advance 32 g))
    ∧ unprotect e (SecretKeyObject (next_bytes 32 g)) = Ok d.
Proof.
  intros [Hs Hparse] Hiv Hct Haes.
  unfold base64_round_trips, aes_round_trips in *.
  destruct (protect_ok d s (next_bytes 32 g) (advance 32 g) Hs
              (next_bytes_length 32 g)) as (m & _ & Hp).
  eexists. split; [done|]. split; [exact Hp|].
  rewrite (unprotect_checked _ _ (check_of_protect _ _ _ _ _ Hp)).
  apply decipherData_ok. eexists _, _, _. cbn [nonce data].
  split; [done|]. split; [done|]. split; [apply next_bytes_length|].
  rewrite Hiv, Hct. split; [apply next_bytes_length|]. split; [exact Haes|].
  by rewrite string_of_list_byte_of_string.
Qed.

(** X6. [checkSignature] accepts what [signData] signs: for data that
    serializes to [s], a private key and the public key under which its
    signatures of [s] verify, [signData] returns a signature that
    [checkSignature] accepts, for that data and for any data with the same
    serialization.  Signing with a key that is not private, and signing or
    checking [undefined], throw. *)
Theorem checkSignature_accepts_signData `{Platform} `{Signing}
    (d : value) (s : string) (priv : RsaPrivateKey) (pub : RsaPublicKey) :
  JSON.stringify d = Some s →
  signature_verifies priv pub (list_byte_of_string s) →
  base64_round_trips (rsa_sha256_sign priv (list_byte_of_string s)) →
  ∃ signature,
    signData d (PrivateKeyObject priv) = Ok signature
    ∧ (∀ d', JSON.stringify d' = Some s →
         checkSignature d' signature (PublicKeyObject pub) = Ok true)
    ∧ signData d (PublicKeyObject pub) = Throw TypeError
    ∧ signData VUndefined (PrivateKeyObject priv) = Throw TypeError
    ∧ checkSignature VUndefined signature (PublicKeyObject pub) = Throw TypeError.
Proof.
  intros Hs Hverify Hb64. unfold signature_verifies, base64_round_trips in *.
  eexists. split; [|split; [|split; [|split]]].
  - unfold signData, string_arg, of_option, mbind, result_bind, rbind.
    rewrite Hs. reflexivity.
  - intros d' Hd'.
    unfold checkSignature, string_arg, of_option, mbind, result_bind, rbind.
    rewrite Hd'. cbn [public_key_of]. by rewrite Hb64, Hverify.
  - unfold signData, string_arg, of_option, mbind, result_bind, rbind.
    by rewrite Hs.
  - done.
  - done.
Qed.

Lemma unprotect_returns_only_when_run :
  unprotect protected0 (SecretKeyObject key0) = Ok payload0.
Proof.
  apply unprotect_returns_only_when. split; [vm_compute; reflexivity|].
  eexists _, key0, (list_byte_of_string payload0_json).
  repeat split; vm_compute; reflexivity.
Defined.

Lemma decryptAsymmetricData_opens_protectAsymmetric_run :
  ∃ e,
    protectAsymmetric payload0 (PublicKeyObject server_rsa_public0)
      (advance 512 entropy0)
      = (Ok e, advance oaep_seed_length (advance 512 entropy0))
    ∧ data e = base64_encode ciphertext0 ∧ nonce e = None
    ∧ decryptAsymmetricData e (PrivateKeyObject (generated_keys entropy0).1)
      = Ok payload0.
Proof.
  apply (decryptAsymmetricData_opens_protectAsymmetric payload0 payload0_json
           server_rsa_public0 (generated_keys entropy0).1 (advance 512 entropy0)
           ciphertext0).
  - split; vm_compute; reflexivity.
  - vm_compute; reflexivity.
  - vm_compute; reflexivity.
  - vm_compute; reflexivity.
  - intros Heq. vm_compute in Heq. discriminate Heq.
Defined.

Lemma generated_key_round_trips_run :
  ∃ e,
    generateSymmetricKey entropy0
      = (Ok (SecretKeyObject (next_bytes 32 entropy0)), advance 32 entropy0)
    ∧ protect payload0 (SecretKeyObject (next_bytes 32 entropy0))
        (advance 32 entropy0)
      = (Ok e, advance 16 (advance 32 entropy0))
    ∧ unprotect e (SecretKeyObject (next_bytes 32 entropy0)) = Ok payload0.
Proof.
  apply (generated_key_round_trips payload0 payload0_json entropy0).
  - split; vm_compute; reflexivity.
  - vm_compute; reflexivity.
  - vm_compute; reflexivity.
  - vm_compute; reflexivity.
Defined.

Lemma checkSignature_accepts_signData_run :
  ∃ signature,
    signData payload0 (PrivateKeyObject (generated_keys entropy0).1) = Ok signature
    ∧ (∀ d', JSON.stringify d' = Some payload0_json →
         checkSignature d' signature (PublicKeyObject (generated_keys entropy0).2)
         = Ok true)
    ∧ signData payload0 (PublicKeyObject (generated_keys entropy0).2)
      = Throw TypeError
    ∧ signData VUndefined (PrivateKeyObject (generated_keys entropy0).1)
      = Throw TypeError
    ∧ checkSignature VUndefined signature
        (PublicKeyObject (generated_keys entropy0).2) = Throw TypeError.
Proof.
  apply (checkSignature_accepts_signData payload0 payload0_json
           (generated_keys entropy0).1 (generated_keys entropy0).2).
  - vm_compute; reflexivity.
  - vm_compute; reflexivity.
  - vm_compute; reflexivity.
Defined.

(** ** More of the service *)

Section MoreServerFacts.
Context `{Imports}.

(** The three worlds a call of [login] can leave. *)
Lemma login_world this now dto w r w' :
  login this now dto w = (r, w') →
  w' = w ∨ w' = nonce_recorded now dto w
  ∨ ∃ client g, w' = set_entropy g (session_issued now dto w client).
Proof.
  rewrite login_unfold.
  repeat (first [ case_decide | case_match ];
          try (intros [= <- <-]; by eauto)).
  intros Hseal. apply seal_response_world in Hseal as [g ->]. eauto.
Qed.

Lemma expired_mono t1 t2 s : t1 ≤ t2 → expired t1 s = true → expired t2 s = true.
Proof.
  unfold expired. destruct (fromISO (expire s)) as [t|]; [|done].
  rewrite !bool_decide_eq_true. lia.
Qed.

(** The keys of [generateAsymmetricKeys] when the PEM encodings give the
    generated keys back. *)
Lemma generateAsymmetricKeys_ok g :
  pem_round_trips (generated_keys g) →
  generateAsymmetricKeys g
  = (Ok {| privateKey := PrivateKeyObject (generated_keys g).1;
           publicKey := PublicKeyObject (generated_keys g).2 |},
     advance 256 g).
Proof.
  intros [Hpub Hpriv].
  unfold generateAsymmetricKeys, randomBytes, liftR, of_option,
    mbind, rand_bind, result_bind, rbind.
  change (rsa_generate modulusLength (next_bytes (N.to_nat (modulusLength / 8)) g))
    with (generated_keys g).
  by rewrite Hpub, Hpriv.
Qed.

End MoreServerFacts.

(** X7. Without [KEYS_PATH] in the configuration the constructor throws
    the error of [getOrThrow] after its first log line: no key pair is
    generated, no random byte is drawn and no file is written. *)
Theorem constructor_needs_keys_path `{Platform} (w : World) :
  configService w !! "KEYS_PATH" = None →
  constructor w
  = (Throw (ConfigError "KEYS_PATH"),
     set_logger (logger w ++ ["Generating server keypair..."])%list w).
Proof.
  intros Hpath. unfold constructor, log, modify, getOrThrow, mbind, M_bind.
  cbn [configService set_logger]. by rewrite Hpath.
Qed.

(** X8. The public key the constructor writes to [server_public.pem] is
    the partner of the private key the service keeps: when the PEM
    encodings give the generated keys back, a payload encrypted with
    [encryptAsymmetricData] under the key read from that file is decrypted
    to the payload by [decryptAsymmetricData] under the key of the service
    (for a payload that serializes, RSA and base64 giving back what they
    were given). *)
Theorem exported_public_key_matches_service `{Platform} (w w' : World)
    (this : ClientService) (d : value) (s : string) (g : Entropy)
    (ct : list byte) :
  constructor w = (Ok this, w') →
  pem_round_trips (generated_keys (os_entropy w)) →
  serializes_to d s →
  rsa_oaep_encrypt (generated_keys (os_entropy w)).2
    (next_bytes oaep_seed_length g) (list_byte_of_string s) = Some ct →
  rsa_oaep_decrypt (generated_keys (os_entropy w)).1 ct
    = Some (list_byte_of_string s) →
  base64_round_trips ct →
  ∃ keysPath pem clientKey c,
    configService w !! "KEYS_PATH" = Some keysPath
    ∧ (keysPath +:+ "/server_public.pem", pem) ∈ fs_writes w'
    ∧ createPublicKey (list_byte_of_string pem) = Ok clientKey
    ∧ encryptAsymmetricData d clientKey g = (Ok c, advance oaep_seed_length g)
    ∧ ∀ m n, decryptAsymmetricData {| mic := m; nonce := n; data := c |}
               (this_privateKey this) = Ok d.
Proof.
  intros Hrun Hpem [Hs Hparse] Henc Hdec Hb64.
  apply constructor_inv in Hrun
    as (keysPath & pub & priv & Hpath & Hthis & Hkeys & Hfs & _).
  rewrite (generateAsymmetricKeys_ok _ Hpem) in Hkeys.
  injection Hkeys as <- <-.
  exists keysPath, (export_spki_pem (generated_keys (os_entropy w)).2),
    (PublicKeyObject (generated_keys (os_entropy w)).2),
    (base64_encode ct).
  split; [done|]. split; [rewrite Hfs; set_solver|].
  destruct Hpem as [Hpub _]. split.
  { unfold createPublicKey, of_option, mbind, result_bind, rbind.
    by rewrite Hpub. }
  split.
  { unfold encryptAsymmetricData, randomBytes, liftR, string_arg,
      public_key_of, of_option, mbind, rand_bind, result_bind, rbind.
    by rewrite Hs, Henc. }
  intros m n. rewrite Hthis.
  unfold decryptAsymmetricData, private_key_of, JSON_parse_or_throw, of_option,
    mbind, result_bind, rbind. cbn [data].
  unfold base64_round_trips in Hb64.
  by rewrite Hb64, Hdec, string_of_list_byte_of_string, Hparse.
Qed.

(** X9. Pruning composes: [checkSessions] at [t1] followed by
    [checkSessions] at a later or equal [t2] leaves the sessions that
    [checkSessions] at [t2] alone leaves; in particular pruning twice at the
    same instant is pruning once. *)
Theorem checkSessions_composes `{Platform} (t1 t2 : Z) (w : World) :
  t1 ≤ t2 →
  sessionModel (checkSessions t2 (checkSessions t1 w).2).2
  = sessionModel (checkSessions t2 w).2.
Proof.
  intros Ht. apply map_eq. intros id. rewrite !checkSessions_lookup.
  destruct (sessionModel w !! id) as [s|]; [|done].
  destruct (expired t1 s) eqn:H1; [|done].
  by rewrite (expired_mono t1 t2 s Ht H1).
Qed.

(** X10. [checkSessions] only removes sessions: it never throws, every
    session it leaves was there with the same content, a session whose
    expiry does not read as a date stays, and the replay cache, the
    clients, the files and the random source are as they were; the log
    has one more line. *)
Theorem checkSessions_only_removes `{Platform} (t : Z) (w : World) :
  (checkSessions t w).1 = Ok ()
  ∧ sessionModel (checkSessions t w).2 ⊆ sessionModel w
  ∧ (∀ id s, sessionModel w !! id = Some s → fromISO (expire s) = None →
       sessionModel (checkSessions t w).2 !! id = Some s)
  ∧ nonceCache (checkSessions t w).2 = nonceCache w
  ∧ clientModel (checkSessions t w).2 = clientModel w
  ∧ fs_writes (checkSessions t w).2 = fs_writes w
  ∧ os_entropy (checkSessions t w).2 = os_entropy w
  ∧ logger (checkSessions t w).2
    = (logger w ++ ["[Sessions Management]: Pruning expired sessions..."])%list.
Proof.
  split; [done|]. split.
  { apply map_subseteq_spec. intros id s. rewrite checkSessions_lookup.
    destruct (sessionModel w !! id) as [s'|]; [|done].
    by destruct (expired t s'). }
  split.
  { intros id s Hs Hiso. rewrite checkSessions_lookup, Hs.
    unfold expired. by rewrite Hiso. }
  done.
Qed.

(** X11. What [login] leaves alone.  Whatever it returns, the
    configuration, the files, the log and the clients are as they were;
    every session that was stored is still stored with the same content,
    and at most one session was added. *)
Theorem login_leaves_the_rest `{Imports} (this : ClientService) (now : Z)
    (dto : EncodedLoginDto) (w w' : World) (r : result LoginResponse) :
  login this now dto w = (r, w') →
  configService w' = configService w
  ∧ fs_writes w' = fs_writes w
  ∧ logger w' = logger w
  ∧ clientModel w' = clientModel w
  ∧ sessionModel w ⊆ sessionModel w'
  ∧ (size (sessionModel w') ≤ S (size (sessionModel w)))%nat.
Proof.
  intros Hlogin.
  assert (sessionModel w !! fresh (dom (sessionModel w)) = None) as Hnew
    by (apply not_elem_of_dom, is_fresh).
  apply login_world in Hlogin as [->|[->|(client & g & ->)]].
  - repeat split; try done. lia.
  - repeat split; try done. cbn. lia.
  - repeat split; try done.
    + cbn. by apply insert_subseteq.
    + cbn. by rewrite map_size_insert_None.
Qed.

(** X12. The response names the session that was stored.  When every
    stage up to the credentials passes, the claimed public key reads as a
    key and [protectAsymmetricServer] seals, [login] returns the [mic] and
    the [data] of the sealing of [{ sessionId, sessionKey }], where
    [sessionId] is the identifier under which the session is stored and
    [sessionKey] the key stored in it. *)
Theorem login_answers_with_stored_session `{Imports} (this : ClientService)
    (now : Z) (dto : EncodedLoginDto) (w : World) (loginData : value)
    (client : Client) (clientKey : KeyObject) (pd : ProtectedData)
    (g : Entropy) :
  stages_passed this now dto w loginData client →
  createPublicKey (base64_decode (dto_publicKey dto)) = Ok clientKey →
  protectAsymmetricServer
    (responseData (fresh (dom (sessionModel w))) (next_bytes 32 (os_entropy w)))
    clientKey (advance 32 (os_entropy w)) = (Ok pd, g) →
  ∃ w',
    login this now dto w = (Ok {| res_mic := mic pd; res_data := data pd |}, w')
    ∧ sessionModel w' !! fresh (dom (sessionModel w))
      = Some (issued_session now dto w client)
    ∧ sessionKey (issued_session now dto w client)
      = base64_encode (next_bytes 32 (os_entropy w))
    ∧ nonceCache w' !! dto_nonce dto = Some (now + nonceTTL).
Proof.
  intros [[[Hfresh Hdec] [Hmic Hval]] (id & supplied & Hid & Hfind & Hpw & Hdigest)]
    Hkey Hseal.
  exists (set_entropy g (session_issued now dto w client)).
  split; [|split; [|split]].
  - rewrite login_unfold, Hfresh. cbn zeta.
    rewrite Hdec, Hmic, Hval, Hid, Hfind, Hpw, Hdigest.
    rewrite decide_False by (cbn; lia). rewrite String.eqb_refl. cbn [negb].
    unfold seal_response. unfold mbind at 1. unfold M_bind, pure_call.
    rewrite Hkey. unfold mbind at 1. unfold M_bind, rand_call.
    cbn [os_entropy session_issued set_sessionModel set_entropy].
    unfold responseData in Hseal. by rewrite Hseal.
  - cbn. apply lookup_insert_eq.
  - done.
  - cbn. apply lookup_insert_eq.
Qed.

(** X13. Why the data did not decrypt is not told.  For a request with a
    fresh nonce, whenever [decryptAsymmetricData] throws, be it on the key,
    on the RSA decryption or on the JSON of the plaintext, [login] throws
    the same [BadRequestException "Data decryption fault"], with the nonce
    recorded and nothing else changed. *)
Theorem login_hides_decryption_cause `{Imports} (this : ClientService)
    (now : Z) (dto : EncodedLoginDto) (w : World) (cause : exn) :
  fresh_nonce now (dto_nonce dto) (nonceCache w) = true →
  decryptAsymmetricData (dto_protected dto) (this_privateKey this) = Throw cause →
  login this now dto w
  = (Throw (BadRequestException ["Data decryption fault"]),
     nonce_recorded now dto w).
Proof.
  intros Hfresh Hdec. rewrite login_unfold, Hfresh. cbn zeta. by rewrite Hdec.
Qed.

Lemma constructor_needs_keys_path_run :
  constructor world_unconfigured
  = (Throw (ConfigError "KEYS_PATH"),
     set_logger (logger world_unconfigured ++ ["Generating server keypair..."])%list
       world_unconfigured).
Proof. apply constructor_needs_keys_path. vm_compute. reflexivity. Defined.

Lemma exported_public_key_matches_service_run :
  ∃ keysPath pem clientKey c,
    configService world_boot !! "KEYS_PATH" = Some keysPath
    ∧ (keysPath +:+ "/server_public.pem", pem) ∈ fs_writes (constructor world_boot).2
    ∧ createPublicKey (list_byte_of_string pem) = Ok clientKey
    ∧ encryptAsymmetricData payload0 clientKey (advance 512 entropy0)
      = (Ok c, advance oaep_seed_length (advance 512 entropy0))
    ∧ ∀ m n, decryptAsymmetricData {| mic := m; nonce := n; data := c |}
               (this_privateKey service0) = Ok payload0.
Proof.
  apply (exported_public_key_matches_service world_boot (constructor world_boot).2
           service0 payload0 payload0_json (advance 512 entropy0) ciphertext0).
  - vm_compute; reflexivity.
  - split; vm_compute; reflexivity.
  - split; vm_compute; reflexivity.
  - vm_compute; reflexivity.
  - vm_compute; reflexivity.
  - vm_compute; reflexivity.
Defined.

Lemma checkSessions_composes_run :
  sessionModel (checkSessions (now0 + minutes 11)
                  (checkSessions (now0 + minutes 1) world_alice).2).2
  = sessionModel (checkSessions (now0 + minutes 11) world_alice).2.
Proof. apply checkSessions_composes. vm_compute. discriminate. Defined.

Lemma login_leaves_the_rest_run :
  configService world_alice = configService world0
  ∧ fs_writes world_alice = fs_writes world0
  ∧ logger world_alice = logger world0
  ∧ clientModel world_alice = clientModel world0
  ∧ sessionModel world0 ⊆ sessionModel world_alice
  ∧ (size (sessionModel world_alice) ≤ S (size (sessionModel world0)))%nat.
Proof.
  exact (login_leaves_the_rest service0 now0 request_alice world0 world_alice _
           (surjective_pairing _)).
Defined.

Lemma login_answers_with_stored_session_run :
  ∃ w',
    login service0 now0 request_alice world0
    = (Ok {| res_mic := mic sealed_response0; res_data := data sealed_response0 |},
       w')
    ∧ sessionModel w' !! fresh (dom (sessionModel world0))
      = Some (issued_session now0 request_alice world0 alice)
    ∧ sessionKey (issued_session now0 request_alice world0 alice)
      = base64_encode (next_bytes 32 (os_entropy world0))
    ∧ nonceCache w' !! dto_nonce request_alice = Some (now0 + nonceTTL).
Proof.
  apply (login_answers_with_stored_session service0 now0 request_alice world0
           payload0 alice client_key0 sealed_response0
           (protectAsymmetricServer
              (responseData (fresh (dom (sessionModel world0)))
                            (next_bytes 32 (os_entropy world0)))
              client_key0 (advance 32 (os_entropy world0))).2).
  - split; [repeat split; vm_compute; reflexivity|].
    exists (VStr "alice"), (VStr "alice12345").
    repeat split; vm_compute; reflexivity.
  - vm_compute; reflexivity.
  - vm_compute; reflexivity.
Defined.

Lemma login_hides_decryption_cause_run :
  login service0 now0 request_garbage world0
  = (Throw (BadRequestException ["Data decryption fault"]),
     nonce_recorded now0 request_garbage world0).
Proof.
  apply (login_hides_decryption_cause service0 now0 request_garbage world0
           CryptoError).
  - vm_compute; reflexivity.
  - vm_compute; reflexivity.
Defined.

(** X14. [protectAsymmetric] returns an envelope exactly when the key is a
    public or a private key, [JSON.stringify] serializes the payload, RSA
    encrypts it under the public half (it refuses a payload too long for
    the modulus) and the base64 of the ciphertext is not empty; the
    envelope then holds that base64 as data and no nonce.  Otherwise it
    throws. *)
Theorem protectAsymmetric_returns_only_when `{Platform} (d : value)
    (k : KeyObject) (g : Entropy) (e : ProtectedData) :
  (protectAsymmetric d k g).1 = Ok e ↔
  ∃ pub s ct,
    public_key_of k = Ok pub
    ∧ JSON.stringify d = Some s
    ∧ rsa_oaep_encrypt pub (next_bytes oaep_seed_length g) (list_byte_of_string s)
      = Some ct
    ∧ base64_encode ct ≠ ""
    ∧ e = {| mic := sha256_base64 (sealed_tag_input (base64_encode ct));
             nonce := None; data := base64_encode ct |}.
Proof.
  unfold protectAsymmetric, encryptAsymmetricData, randomBytes, liftR,
    string_arg, of_option, mbind, rand_bind, result_bind, rbind.
  destruct (public_key_of k) as [pub|x]; cbn [fst];
    [|split; [done|]; by intros (? & ? & ? & ? & _)].
  destruct (JSON.stringify d) as [s|]; cbn [fst];
    [|split; [done|]; by intros (? & ? & ? & _ & ? & _)].
  destruct (rsa_oaep_encrypt _ _ _) as [ct|] eqn:Henc; cbn [fst].
  - case_decide as Hempty; cbn [fst].
    + split; [done|].
      intros (pub' & s' & ct' & Hpub' & Hs' & Hct & Hne & _).
      injection Hpub' as <-. injection Hs' as <-.
      pose proof (eq_trans (eq_sym Henc) Hct) as [= <-]. done.
    + unfold secureHash, JSON_stringify, string_arg, of_option.
      cbn -[JSON.quote]. fold (sealed_tag_input (base64_encode ct)).
      split.
      * intros [= <-]. eauto 10.
      * intros (pub' & s' & ct' & Hpub' & Hs' & Hct & _ & ->).
        injection Hpub' as <-. injection Hs' as <-.
        by pose proof (eq_trans (eq_sym Henc) Hct) as [= <-].
  - split; [done|].
    intros (pub' & s' & ct' & Hpub' & Hs' & Hct & _).
    injection Hpub' as <-. injection Hs' as <-.
    by pose proof (eq_trans (eq_sym Henc) Hct).
Qed.

(** X15. [unprotectAsymmetric] fails closed, as [unprotect] does: the tag
    is recomputed from the data and the nonce of the envelope; when it
    differs from [mic] the result is the integrity error under every key,
    and otherwise it is the result of [decryptAsymmetricData]. *)
Theorem unprotectAsymmetric_fails_closed `{Platform} (e : ProtectedData)
    (key : KeyObject) :
  if decide (sha256_base64 (check_tag_input e) = mic e)
  then unprotectAsymmetric e key = decryptAsymmetricData e key
  else unprotectAsymmetric e key
       = Throw (Error "Failed to decipher: compromised data!").
Proof.
  unfold unprotectAsymmetric, mbind, result_bind, rbind. rewrite check_eq.
  case_decide as Htag.
  - by rewrite Htag, String.eqb_refl.
  - apply String.eqb_neq in Htag. by rewrite Htag.
Qed.

(** X16. A wrong password is refused unless SHA-256 collides.  Let the
    stored password of the client be [secureHash] of a string [p], as the
    seed stores it, and let a request that reaches the credential check
    carry the id of that client and a string [p'] other than [p].  The two
    strings hashed are different, and unless their digests are equal
    [login] throws [UnauthorizedException "Invalid credentials"]. *)
Theorem wrong_password_is_refused `{Imports} (this : ClientService) (now : Z)
    (dto : EncodedLoginDto) (w : World) (loginData id : value)
    (client : Client) (p p' : string) :
  reaches_credentials this now dto w loginData →
  get_prop loginData "clientId" = Ok id →
  find_client id (clientModel w) = Some client →
  secureHash (VStr p) = Ok (password client) →
  get_prop loginData "password" = Ok (VStr p') →
  p' ≠ p →
  JSON.quote p' ≠ JSON.quote p
  ∧ (sha256_base64 (JSON.quote p') ≠ sha256_base64 (JSON.quote p) →
       login this now dto w
       = (Throw (UnauthorizedException "Invalid credentials"),
          nonce_recorded now dto w)).
Proof.
  intros [[Hfresh Hdec] [Hmic Hval]] Hid Hfind Hstored Hpw Hne.
  split; [by intros ?%quote_inj|]. intros Hsha.
  injection Hstored as Hstored.
  rewrite login_unfold, Hfresh. cbn zeta.
  rewrite Hdec, Hmic, Hval, Hid, Hfind, Hpw.
  rewrite decide_False by (cbn; lia).
  change (secureHash (VStr p')) with (Ok (sha256_base64 (JSON.quote p'))).
  cbn match. rewrite <- Hstored.
  destruct (String.eqb_spec (sha256_base64 (JSON.quote p))
              (sha256_base64 (JSON.quote p'))) as [Heq|_]; [|done].
  by destruct Hsha.
Qed.

Lemma protectAsymmetric_returns_only_when_run :
  (protectAsymmetric payload0 server_public0 (advance 512 entropy0)).1 = Ok sealed0.
Proof.
  apply protectAsymmetric_returns_only_when.
  exists server_rsa_public0, payload0_json, ciphertext0.
  split; [vm_compute; reflexivity|]. split; [vm_compute; reflexivity|].
  split; [vm_compute; reflexivity|]. split; [|vm_compute; reflexivity].
  intros Heq. vm_compute in Heq. discriminate Heq.
Defined.

Lemma wrong_password_is_refused_run :
  login service0 now0 request_wrong_password world0
  = (Throw (UnauthorizedException "Invalid credentials"),
     nonce_recorded now0 request_wrong_password world0).
Proof.
  apply (wrong_password_is_refused service0 now0 request_wrong_password world0
           payload_guess (VStr "alice") alice "alice12345" "letmein").
  - repeat split; vm_compute; reflexivity.
  - vm_compute; reflexivity.
  - vm_compute; reflexivity.
  - vm_compute; reflexivity.
  - vm_compute; reflexivity.
  - discriminate.
  - intros Heq. vm_compute in Heq. discriminate Heq.
Defined.

